(** * Agent registry and health reconciliation (supervisor/registry.py)

    A shallow embedding of the supervisor's registry module: the registry
    file, the in-memory list of agents, the health sweep, the persistence of
    statuses and the live status query, followed by the properties of the
    registry specification that were checked against it. *)

From Stdlib Require Import String Ascii List ZArith Bool Arith Lia.
Import ListNotations.
Open Scope string_scope.
Open Scope list_scope.

(** ** JSON values, as [json.load] returns them *)

(** Numbers are kept as integers; JSON objects are Python dicts, which keep
    their keys in insertion order. *)
#[warnings="-register-all"]
Inductive json : Type :=
| JNull
| JBool (b : bool)
| JNum (n : Z)
| JStr (s : string)
| JArr (items : list json)
| JObj (fields : list (string * json)).

(** A Python dict with string keys: an insertion-ordered association list. *)
Definition dict (V : Type) : Type := list (string * V).

Fixpoint dict_get {V : Type} (k : string) (d : dict V) : option V :=
  match d with
  | [] => None
  | (k', v) :: t => if String.eqb k' k then Some v else dict_get k t
  end.

(** [d[k] = v]: an existing key keeps its position, a new key goes last. *)
Fixpoint dict_set {V : Type} (k : string) (v : V) (d : dict V) : dict V :=
  match d with
  | [] => [(k, v)]
  | (k', v') :: t =>
      if String.eqb k' k then (k', v) :: t else (k', v') :: dict_set k v t
  end.

Definition dict_has {V : Type} (k : string) (d : dict V) : bool :=
  match dict_get k d with Some _ => true | None => false end.

(** The fields of a dict other than [k], in order. *)
Definition dict_without {V : Type} (k : string) (d : dict V) : dict V :=
  filter (fun kv => negb (String.eqb (fst kv) k)) d.

(** ** Strings *)

(** [s.rstrip(c)] for a single character [c]. *)
Fixpoint rstrip (c : ascii) (s : string) : string :=
  match s with
  | EmptyString => EmptyString
  | String a t =>
      match rstrip c t with
      | EmptyString => if Ascii.eqb a c then EmptyString else String a EmptyString
      | t' => String a t'
      end
  end.

(** [needle in hay] on Python strings. *)
Fixpoint str_contains (needle hay : string) : bool :=
  String.prefix needle hay
  || match hay with
     | EmptyString => false
     | String _ t => str_contains needle t
     end.

(** ** Exceptions and results *)

Inductive exn : Type :=
| FileNotFoundError
| PermissionError
| JSONDecodeError
| TypeError
| AttributeError
| ValidationError
| ConnectError
| TimeoutException.

Definition is_FileNotFoundError (e : exn) : bool :=
  match e with FileNotFoundError => true | _ => false end.

Inductive res (A : Type) : Type :=
| Ok (a : A)
| Raise (e : exn).
Arguments Ok {A} a.
Arguments Raise {A} e.

(** ** Python operations on JSON values *)

(** [x == s] for a string literal [s]. *)
Definition json_eq_str (x : json) (s : string) : bool :=
  match x with JStr t => String.eqb t s | _ => false end.

(** [for x in j]: lists yield their items, dicts their keys, strings their
    characters; nothing else is iterable. *)
Definition py_iter (j : json) : res (list json) :=
  match j with
  | JArr l => Ok l
  | JObj d => Ok (map (fun kv => JStr (fst kv)) d)
  | JStr s => Ok (map (fun c => JStr (String c EmptyString)) (list_ascii_of_string s))
  | _ => Raise TypeError
  end.

(** [s in j] for a string literal [s]. *)
Definition py_in (s : string) (j : json) : res bool :=
  match j with
  | JObj d => Ok (dict_has s d)
  | JStr t => Ok (str_contains s t)
  | JArr l => Ok (existsb (fun x => json_eq_str x s) l)
  | _ => Raise TypeError
  end.

(** [j.get(k)]: only dicts have [get]; a missing key gives [None]. *)
Definition py_get (j : json) (k : string) : res json :=
  match j with
  | JObj d => Ok (match dict_get k d with Some v => v | None => JNull end)
  | _ => Raise AttributeError
  end.

(** ** The agent record *)

(** Modelled from the spec: the [Agent] class of shared/models.py, which is
    not among the sources.  An agent record has an [id] and a [url] (strings),
    a [status] that is [unknown] until set, and the additional fields of its
    registry entry, kept verbatim. *)
Record Agent : Type := mkAgent {
  id : string;
  url : string;
  status : string;
  extra : dict json
}.

Definition set_agent_status (s : string) (a : Agent) : Agent :=
  {| id := id a; url := url a; status := s; extra := extra a |}.

(** Modelled from the spec: the constructor of the missing class, called
    with the fields of a registry entry as keyword arguments.
    [id] and [url] are required strings; [status] is taken from the entry
    when it has one and defaults to [unknown]; the remaining fields are
    kept. *)
Definition Agent_init (data : dict json) : res Agent :=
  match dict_get "id" data, dict_get "url" data with
  | Some (JStr i), Some (JStr u) =>
      let rest :=
        dict_without "status" (dict_without "url" (dict_without "id" data)) in
      match dict_get "status" data with
      | None => Ok (mkAgent i u "unknown" rest)
      | Some (JStr s) => Ok (mkAgent i u s rest)
      | Some _ => Raise ValidationError
      end
  | _, _ => Raise ValidationError
  end.

(** The call of the constructor on an entry: keyword unpacking needs a
    mapping. *)
Definition Agent_kwargs (data : json) : res Agent :=
  match data with
  | JObj d => Agent_init d
  | _ => Raise TypeError
  end.

(** ** The world the module runs in *)

(** What an HTTP GET on an agent's health endpoint produces: the response
    (status code, and the JSON the body parses to, if it does), or a
    transport failure raised by the client. *)
Record Response : Type := mkResponse {
  status_code : Z;
  body : option json
}.

Inductive http_result : Type :=
| Failed (e : exn)
| Replied (r : Response).

(** The reachability of the fleet: the outcome of a GET on each address. *)
Definition network : Type := string -> http_result.

(** The registry file: absent, present but not readable, present but not
    JSON, or holding a JSON value. *)
Inductive file_state : Type :=
| Absent
| Unreadable
| Malformed
| Content (j : json).

Inductive level : Type := DEBUG | INFO | WARNING | ERROR.

Inductive message : Type :=
| SkippingInvalidEntry (data : json)
| LoadedAgents (n : nat)
| RegistryFileNotFound
| CheckingHealth (agent_id address : string)
| HealthCheckFailed (agent_id : string) (exc : exn)
| FailedToPersist (e : exn)
| HealthChecksComplete
| PersistedStatuses
| ErrorSavingStatuses (e : exn)
| LiveCheckError (agent_id : string) (e : exn).

(** What the module does to the outside, in order. *)
Inductive event : Type :=
| Log (lvl : level) (m : message)
| OpenRead
| OpenWrite
| HttpSend (address : string)
| HttpRecv (address : string) (r : http_result).

Record world : Type := mkWorld {
  registry_file : file_state;
  writable : bool;
  _agents : list Agent;
  trace : list event
}.

(** ** A state and exception monad *)

Definition M (A : Type) : Type := world -> res A * world.

Definition ret {A : Type} (a : A) : M A := fun w => (Ok a, w).

Definition raise {A : Type} (e : exn) : M A := fun w => (Raise e, w).

Definition bind {A B : Type} (c : M A) (k : A -> M B) : M B :=
  fun w =>
    match c w with
    | (Ok a, w') => k a w'
    | (Raise e, w') => (Raise e, w')
    end.

(** [try: c except Exception as e: h e]; the state changes made by [c]
    before it raised are kept. *)
Definition try_except {A : Type} (c : M A) (h : exn -> M A) : M A :=
  fun w =>
    match c w with
    | (Ok a, w') => (Ok a, w')
    | (Raise e, w') => h e w'
    end.

(** [try: c except E: h] for the exceptions selected by [sel]. *)
Definition try_except_only {A : Type} (sel : exn -> bool) (c : M A) (h : M A)
  : M A :=
  fun w =>
    match c w with
    | (Ok a, w') => (Ok a, w')
    | (Raise e, w') => if sel e then h w' else (Raise e, w')
    end.

Definition lift {A : Type} (r : res A) : M A := fun w => (r, w).

Declare Scope py_scope.
Delimit Scope py_scope with py.
Notation "x <- c ;; k" := (bind c (fun x => k))
  (at level 61, c at next level, right associativity) : py_scope.
Notation "c ;; k" := (bind c (fun _ => k))
  (at level 61, right associativity) : py_scope.
Open Scope py_scope.

Definition emit (e : event) : M unit :=
  fun w => (Ok tt, mkWorld (registry_file w) (writable w) (_agents w) (trace w ++ [e])).

Definition log (lvl : level) (m : message) : M unit := emit (Log lvl m).

Definition get_agents : M (list Agent) := fun w => (Ok (_agents w), w).

Definition set_agents (l : list Agent) : M unit :=
  fun w => (Ok tt, mkWorld (registry_file w) (writable w) l (trace w)).

(** [with open(REGISTRY_FILE, 'r') as f: json.load(f)]. *)
Definition read_registry_file : M json :=
  emit OpenRead ;;
  fun w =>
    match registry_file w with
    | Absent => (Raise FileNotFoundError, w)
    | Unreadable => (Raise PermissionError, w)
    | Malformed => (Raise JSONDecodeError, w)
    | Content j => (Ok j, w)
    end.

(** [with open(REGISTRY_FILE, 'w') as f: json.dump(j, f, indent=2)]. *)
Definition write_registry_file (j : json) : M unit :=
  emit OpenWrite ;;
  fun w =>
    if writable w
    then (Ok tt, mkWorld (Content j) (writable w) (_agents w) (trace w))
    else (Raise PermissionError, w).

(** [await client.get(address, timeout=3.0)]: the request goes out, the
    coroutine is suspended until the response or the failure comes back. *)
Definition client_get (net : network) (address : string) : M Response :=
  emit (HttpSend address) ;;
  emit (HttpRecv address (net address)) ;;
  match net address with
  | Failed e => raise e
  | Replied r => ret r
  end.

(** [response.json()]. *)
Definition Response_json (r : Response) : res json :=
  match body r with
  | Some j => Ok j
  | None => Raise JSONDecodeError
  end.

(** ** load_registry *)

(** [_agents.append(agent)]. *)
Definition append_agent (agent : Agent) : M unit :=
  fun w => (Ok tt, mkWorld (registry_file w) (writable w) (_agents w ++ [agent]) (trace w)).

(** ['id' not in data or 'url' not in data], with Python's short circuit. *)
Definition missing_required (data : json) : res bool :=
  match py_in "id" data with
  | Raise e => Raise e
  | Ok false => Ok true
  | Ok true =>
      match py_in "url" data with
      | Raise e => Raise e
      | Ok b => Ok (negb b)
      end
  end.

(** The body of [for data in agents_data]. *)
Fixpoint load_entries (agents_data : list json) : M unit :=
  match agents_data with
  | [] => ret tt
  | data :: rest =>
      missing <- lift (missing_required data) ;;
      if missing : bool
      then log WARNING (SkippingInvalidEntry data) ;; load_entries rest
      else agent <- lift (Agent_kwargs data) ;;
           append_agent agent ;;
           load_entries rest
  end.

Definition load_registry : M unit :=
  try_except_only is_FileNotFoundError
    (agents_data <- read_registry_file ;;
     set_agents [] ;;
     entries <- lift (py_iter agents_data) ;;
     load_entries entries ;;
     agents <- get_agents ;;
     log INFO (LoadedAgents (length agents)))
    (log ERROR RegistryFileNotFound ;;
     set_agents []).

(** ** save_registry_statuses *)

(** [{a.id: a.status for a in _agents}]: a later agent overwrites the entry
    of an earlier one with the same id. *)
Definition build_status_map (agents : list Agent) : dict string :=
  fold_left (fun m a => dict_set (id a) (status a) m) agents [].

(** [aid in status_map]: lists and dicts are unhashable; of the hashable
    values only a string can equal a key. *)
Definition in_status_map (aid : json) (status_map : dict string) : res bool :=
  match aid with
  | JStr k => Ok (dict_has k status_map)
  | JArr _ | JObj _ => Raise TypeError
  | _ => Ok false
  end.

(** The body of [for entry in disk_agents]: the entry after the iteration. *)
Definition overlay_entry (status_map : dict string) (entry : json) : res json :=
  match py_get entry "id" with
  | Raise e => Raise e
  | Ok aid =>
      match in_status_map aid status_map with
      | Raise e => Raise e
      | Ok false => Ok entry
      | Ok true =>
          match entry, aid with
          | JObj d, JStr k =>
              match dict_get k status_map with
              | Some s => Ok (JObj (dict_set "status" (JStr s) d))
              | None => Ok entry
              end
          | _, _ => Ok entry
          end
      end
  end.

Fixpoint overlay_entries (status_map : dict string) (entries : list json)
  : res (list json) :=
  match entries with
  | [] => Ok []
  | entry :: rest =>
      match overlay_entry status_map entry with
      | Raise e => Raise e
      | Ok entry' =>
          match overlay_entries status_map rest with
          | Raise e => Raise e
          | Ok rest' => Ok (entry' :: rest')
          end
      end
  end.

(** The entries are changed in place: in a list they are its items; the
    keys of a dict and the characters of a string are not part of it. *)
Definition with_entries (disk_agents : json) (entries : list json) : json :=
  match disk_agents with
  | JArr _ => JArr entries
  | _ => disk_agents
  end.

Definition save_registry_statuses : M unit :=
  try_except
    (disk_agents <- read_registry_file ;;
     agents <- get_agents ;;
     let status_map := build_status_map agents in
     entries <- lift (py_iter disk_agents) ;;
     entries' <- lift (overlay_entries status_map entries) ;;
     write_registry_file (with_entries disk_agents entries') ;;
     log INFO PersistedStatuses)
    (fun e => log ERROR (ErrorSavingStatuses e)).

(** ** health_check_agents *)

Fixpoint update_nth {A : Type} (i : nat) (f : A -> A) (l : list A) : list A :=
  match l, i with
  | [], _ => []
  | x :: t, O => f x :: t
  | x :: t, S j => x :: update_nth j f t
  end.

(** [agent.status = s] for the agent object held at position [i] of
    [_agents]. *)
Definition set_status (i : nat) (s : string) : M unit :=
  fun w =>
    (Ok tt, mkWorld (registry_file w) (writable w)
                    (update_nth i (set_agent_status s) (_agents w)) (trace w)).

Definition health_url (agent : Agent) : string :=
  (rstrip "/" (url agent) ++ "/health")%string.

(** The body of [for agent in _agents], for the agent at position [i]. *)
Definition check_agent (net : network) (i : nat) (agent : Agent) : M unit :=
  try_except
    (let address := health_url agent in
     log DEBUG (CheckingHealth (id agent) address) ;;
     response <- client_get net address ;;
     is_healthy <-
       try_except
         (json_body <- lift (Response_json response) ;;
          if (status_code response =? 200)%Z
          then v <- lift (py_get json_body "status") ;;
               ret (json_eq_str v "healthy")
          else ret false)
         (fun _ => ret (status_code response =? 200)%Z) ;;
     set_status i (if is_healthy : bool then "healthy" else "offline"))
    (fun exc =>
       log DEBUG (HealthCheckFailed (id agent) exc) ;;
       set_status i "offline").

Fixpoint check_agents_from (net : network) (i : nat) (agents : list Agent)
  : M unit :=
  match agents with
  | [] => ret tt
  | agent :: rest =>
      check_agent net i agent ;;
      check_agents_from net (S i) rest
  end.

Definition health_check_agents (net : network) : M unit :=
  agents <- get_agents ;;
  check_agents_from net 0 agents ;;
  try_except save_registry_statuses
             (fun e => log WARNING (FailedToPersist e)) ;;
  log INFO HealthChecksComplete.

(** ** list_agents, get_agent *)

Definition list_agents : M (list Agent) := get_agents.

(** The first agent with the given id, and its position in the list. *)
Fixpoint find_agent (agent_id : string) (i : nat) (agents : list Agent)
  : option (nat * Agent) :=
  match agents with
  | [] => None
  | agent :: rest =>
      if String.eqb (id agent) agent_id then Some (i, agent)
      else find_agent agent_id (S i) rest
  end.

Definition get_agent (agent_id : string) : M (option Agent) :=
  agents <- get_agents ;;
  ret (option_map snd (find_agent agent_id 0 agents)).

(** ** check_agent_live_status *)

Definition get_status (i : nat) : M string :=
  fun w =>
    (Ok (match nth_error (_agents w) i with
         | Some a => status a
         | None => ""
         end), w).

(** The probe of the live status query, for the agent found at position
    [i]: the [try] block with its two handlers. *)
Definition live_probe (net : network) (agent_id : string) (i : nat)
           (agent : Agent) : M unit :=
  try_except
    (let address := health_url agent in
     resp <- client_get net address ;;
     try_except
       (j <- lift (Response_json resp) ;;
        healthy <- (if (status_code resp =? 200)%Z
                    then v <- lift (py_get j "status") ;;
                         ret (json_eq_str v "healthy")
                    else ret false) ;;
        if healthy : bool
        then set_status i "healthy"
        else set_status i "offline")
       (fun _ =>
          set_status i (if (status_code resp =? 200)%Z
                        then "healthy" else "offline")))
    (fun e =>
       log DEBUG (LiveCheckError agent_id e) ;;
       set_status i "offline").

Definition check_agent_live_status (net : network) (agent_id : string)
  : M string :=
  agents <- get_agents ;;
  match find_agent agent_id 0 agents with
  | None => ret "not_found"
  | Some (i, agent) =>
      live_probe net agent_id i agent ;;
      try_except save_registry_statuses (fun _ => ret tt) ;;
      get_status i
  end.

(** ** Notions used in the statements *)

(** The entry has both required fields. *)
Definition has_required (d : dict json) : bool :=
  dict_has "id" d && dict_has "url" d.

(** The status a registry entry carries, [unknown] when it carries none. *)
Definition entry_status (d : dict json) : string :=
  match dict_get "status" d with
  | Some (JStr s) => s
  | _ => "unknown"
  end.

(** The string an entry holds under [k]. *)
Definition entry_str (k : string) (d : dict json) : string :=
  match dict_get k d with
  | Some (JStr s) => s
  | _ => ""
  end.

(** The record an accepted entry is loaded as. *)
Definition entry_agent (d : dict json) : Agent :=
  mkAgent (entry_str "id" d) (entry_str "url" d) (entry_status d)
          (dict_without "status" (dict_without "url" (dict_without "id" d))).

(** The constructor accepts an entry that has the required fields. *)
Definition accepted (d : dict json) : Prop :=
  has_required d = true -> exists a, Agent_init d = Ok a.

(** The diagnostic logged for a skipped entry, and the skipped entries. *)
Definition skip_warning (d : dict json) : event :=
  Log WARNING (SkippingInvalidEntry (JObj d)).

Definition skipped (ds : list (dict json)) : list (dict json) :=
  filter (fun d => negb (has_required d)) ds.

(** A registry file with three entries, the second one without a [url] and
    the third one carrying a [status]. *)
Definition sample_entries : list (dict json) :=
  [ [("id", JStr "a"); ("url", JStr "http://x/"); ("capabilities", JArr [JStr "search"])];
    [("id", JStr "c")];
    [("id", JStr "b"); ("url", JStr "http://y"); ("status", JStr "healthy")] ].

Definition sample_world : world :=
  mkWorld (Content (JArr (map JObj sample_entries))) true [] [].

(** The JSON value [save_registry_statuses] is about to write, or the
    exception that stops it before the write. *)
Definition overlaid_file (f : file_state) (agents : list Agent) : res json :=
  match f with
  | Absent => Raise FileNotFoundError
  | Unreadable => Raise PermissionError
  | Malformed => Raise JSONDecodeError
  | Content j =>
      match py_iter j with
      | Raise e => Raise e
      | Ok entries =>
          match overlay_entries (build_status_map agents) entries with
          | Raise e => Raise e
          | Ok entries' => Ok (with_entries j entries')
          end
      end
  end.

(** The registry file after [save_registry_statuses], and the events the
    call adds to the trace. *)
Definition file_after_save (f : file_state) (wr : bool) (agents : list Agent)
  : file_state :=
  match overlaid_file f agents with
  | Ok j' => if wr then Content j' else f
  | Raise _ => f
  end.

Definition save_events (f : file_state) (wr : bool) (agents : list Agent)
  : list event :=
  match overlaid_file f agents with
  | Ok _ =>
      if wr then [OpenRead; OpenWrite; Log INFO PersistedStatuses]
      else [OpenRead; OpenWrite; Log ERROR (ErrorSavingStatuses PermissionError)]
  | Raise e => [OpenRead; Log ERROR (ErrorSavingStatuses e)]
  end.

(** The status a probe leaves on the agent, by the outcome of the GET. *)
Definition probe_status (r : http_result) : string :=
  match r with
  | Failed _ => "offline"
  | Replied resp =>
      if (status_code resp =? 200)%Z then
        match body resp with
        | Some (JObj d) =>
            match dict_get "status" d with
            | Some v => if json_eq_str v "healthy" then "healthy" else "offline"
            | None => "offline"
            end
        | _ => "healthy"
        end
      else "offline"
  end.

(** The agent record after its probe. *)
Definition probed (net : network) (a : Agent) : Agent :=
  set_agent_status (probe_status (net (health_url a))) a.

(** The events of one iteration of the sweep. *)
Definition probe_events (net : network) (a : Agent) : list event :=
  [Log DEBUG (CheckingHealth (id a) (health_url a));
   HttpSend (health_url a);
   HttpRecv (health_url a) (net (health_url a))]
  ++ match net (health_url a) with
     | Failed e => [Log DEBUG (HealthCheckFailed (id a) e)]
     | Replied _ => []
     end.

(** The events of the probe of a live status query. *)
Definition live_events (net : network) (agent_id : string) (a : Agent)
  : list event :=
  [HttpSend (health_url a);
   HttpRecv (health_url a) (net (health_url a))]
  ++ match net (health_url a) with
     | Failed e => [Log DEBUG (LiveCheckError agent_id e)]
     | Replied _ => []
     end.

Definition is_2xx (code : Z) : bool := ((200 <=? code) && (code <? 300))%Z.

(** The classification of a probe as the specification words it: a
    transport failure, a timeout or a non-2xx response gives [offline]; a
    2xx response whose body parses to structured data with a status field
    equal to [healthy] gives [healthy]; any other 2xx response gives
    [offline]. *)
Definition claimed_status (r : http_result) : string :=
  match r with
  | Failed _ => "offline"
  | Replied resp =>
      if is_2xx (status_code resp) then
        match body resp with
        | Some (JObj d) =>
            match dict_get "status" d with
            | Some (JStr "healthy") => "healthy"
            | _ => "offline"
            end
        | _ => "offline"
        end
      else "offline"
  end.

(** The classification the code keeps to: a failed GET and a response other
    than 200 give [offline]; a 200 response whose body parses to an object
    gives [healthy] when the object's status field is [healthy] and
    [offline] when it is not.  Nothing is said of a 200 response whose body
    does not parse to an object. *)
Definition classified (r : http_result) (s : string) : Prop :=
  (forall e, r = Failed e -> s = "offline")
  /\ (forall resp, r = Replied resp -> status_code resp <> 200%Z -> s = "offline")
  /\ (forall resp d, r = Replied resp -> status_code resp = 200%Z ->
        body resp = Some (JObj d) ->
        dict_get "status" d = Some (JStr "healthy") -> s = "healthy")
  /\ (forall resp d, r = Replied resp -> status_code resp = 200%Z ->
        body resp = Some (JObj d) ->
        dict_get "status" d <> Some (JStr "healthy") -> s = "offline").

(** A registry with one agent, and three fleets: one answering 201 with a
    healthy body, one answering 200 with a body that is not JSON, one
    answering 200 with a healthy body. *)
Definition one_agent_world : world :=
  mkWorld (Content (JArr [JObj [("id", JStr "a"); ("url", JStr "http://x")]]))
          true [mkAgent "a" "http://x" "unknown" []] [].

Definition healthy_body : option json :=
  Some (JObj [("status", JStr "healthy")]).

Definition net_201 : network := fun _ => Replied (mkResponse 201 healthy_body).

Definition net_plain_200 : network := fun _ => Replied (mkResponse 200 None).

Definition net_healthy : network := fun _ => Replied (mkResponse 200 healthy_body).

(** Events of the probes and of the registry file. *)
Definition is_http (e : event) : bool :=
  match e with
  | HttpSend _ | HttpRecv _ _ => true
  | _ => false
  end.

Definition is_send (e : event) : bool :=
  match e with HttpSend _ => true | _ => false end.

Definition is_recv (e : event) : bool :=
  match e with HttpRecv _ _ => true | _ => false end.

Definition is_file (e : event) : bool :=
  match e with
  | OpenRead | OpenWrite => true
  | _ => false
  end.

(** A trace in which all the probes are fired before any result is awaited:
    no request goes out once a result has come back. *)
Fixpoint fired_then_awaited (tr : list event) : bool :=
  match tr with
  | [] => true
  | e :: rest =>
      if is_recv e then forallb (fun e' => negb (is_send e')) rest
      else fired_then_awaited rest
  end.

(** The request of one probe and the result that answers it. *)
Definition http_exchange (net : network) (a : Agent) : list event :=
  [HttpSend (health_url a); HttpRecv (health_url a) (net (health_url a))].

(** A registry with two agents. *)
Definition two_agent_world : world :=
  mkWorld (Content (JArr [JObj [("id", JStr "a"); ("url", JStr "http://x")];
                          JObj [("id", JStr "b"); ("url", JStr "http://y")]]))
          true
          [mkAgent "a" "http://x" "unknown" []; mkAgent "b" "http://y" "unknown" []]
          [].

(** The status of the last loaded record with the given id, if any. *)
Fixpoint last_status (agents : list Agent) (k : string) : option string :=
  match agents with
  | [] => None
  | a :: rest =>
      match last_status rest k with
      | Some s => Some s
      | None => if String.eqb (id a) k then Some (status a) else None
      end
  end.

(** An entry whose [id], if it has one, can be looked up in a dict: it is
    not a list or an object. *)
Definition hashable_id (d : dict json) : bool :=
  match dict_get "id" d with
  | Some (JArr _) | Some (JObj _) => false
  | _ => true
  end.

(** A disk entry after the overlay of the statuses of the given records. *)
Definition overlay_dict (agents : list Agent) (d : dict json) : dict json :=
  match dict_get "id" d with
  | Some (JStr k) =>
      match last_status agents k with
      | Some s => dict_set "status" (JStr s) d
      | None => d
      end
  | _ => d
  end.

(** The persistence cannot read the registry file. *)
Definition read_fails (w : world) : Prop :=
  registry_file w = Absent \/ registry_file w = Unreadable
  \/ registry_file w = Malformed.

(** The persistence cannot write the registry file. *)
Definition write_fails (w : world) : Prop := writable w = false.

(** A registry with two records of the same id, and a registry file with
    two entries of that id and one of another. *)
Definition duplicate_world : world :=
  mkWorld (Content (JArr (map JObj
             [ [("id", JStr "a"); ("url", JStr "http://x"); ("rank", JNum 1)];
               [("id", JStr "z"); ("url", JStr "http://z"); ("status", JStr "unknown")];
               [("id", JStr "a"); ("url", JStr "http://y"); ("status", JStr "unknown")] ])))
          true
          [mkAgent "a" "http://x" "healthy" []; mkAgent "a" "http://y" "offline" []]
          [].

(** ** Notions used in the further properties *)

(** A JSON value that is neither a string nor a container: Python can
    neither iterate over it nor test membership in it. *)
Definition is_scalar (j : json) : bool :=
  match j with
  | JNull | JBool _ | JNum _ => true
  | _ => false
  end.

(** The exception the read of a present but unusable registry file raises. *)
Definition read_error (f : file_state) : exn :=
  match f with
  | Absent => FileNotFoundError
  | Unreadable => PermissionError
  | _ => JSONDecodeError
  end.

(** The diagnostic logged for a skipped candidate of any shape. *)
Definition skip_warning_json (data : json) : event :=
  Log WARNING (SkippingInvalidEntry data).

(** A disk entry the flush cannot process: it is not an object, or its [id]
    is a list or an object. *)
Definition entry_unusable (entry : json) : bool :=
  match entry with
  | JObj d => negb (hashable_id d)
  | _ => true
  end.


(** What identifies a record and is never written after the load. *)
Definition identity (a : Agent) : string * string * dict json :=
  (id a, url a, extra a).

(** * Properties *)

(** ** Dicts *)

Lemma dict_get_set_same {V : Type} (k : string) (v : V) (d : dict V) :
  dict_get k (dict_set k v d) = Some v.
Proof.
  induction d as [|[k' v'] t IH]; simpl.
  - now rewrite String.eqb_refl.
  - destruct (String.eqb k' k) eqn:E; simpl; now rewrite E.
Qed.

Lemma dict_get_set_other {V : Type} (k k0 : string) (v : V) (d : dict V) :
  k0 <> k -> dict_get k0 (dict_set k v d) = dict_get k0 d.
Proof.
  intros Hne.
  induction d as [|[k' v'] t IH]; simpl.
  - destruct (String.eqb_spec k k0); [congruence | reflexivity].
  - destruct (String.eqb_spec k' k) as [->|Hk]; simpl.
    + destruct (String.eqb_spec k k0); [congruence | reflexivity].
    + now rewrite IH.
Qed.

Lemma dict_set_idem {V : Type} (k : string) (v : V) (d : dict V) :
  dict_set k v (dict_set k v d) = dict_set k v d.
Proof.
  induction d as [|[k' v'] t IH]; simpl.
  - now rewrite String.eqb_refl.
  - destruct (String.eqb k' k) eqn:E; simpl; rewrite E; [reflexivity | now rewrite IH].
Qed.

(** Setting a key leaves the other fields, and their order, as they were. *)
Lemma dict_without_set {V : Type} (k : string) (v : V) (d : dict V) :
  dict_without k (dict_set k v d) = dict_without k d.
Proof.
  unfold dict_without.
  induction d as [|[k' v'] t IH]; simpl.
  - now rewrite String.eqb_refl.
  - destruct (String.eqb k' k) eqn:E; simpl; rewrite E; simpl;
      [reflexivity | now rewrite IH].
Qed.

(** ** Loading *)

Lemma missing_required_obj (d : dict json) :
  missing_required (JObj d) = Ok (negb (has_required d)).
Proof.
  unfold missing_required, has_required; simpl.
  destruct (dict_has "id" d); reflexivity.
Qed.

Lemma Agent_init_entry_agent (d : dict json) (a : Agent) :
  Agent_init d = Ok a -> a = entry_agent d.
Proof.
  unfold Agent_init, entry_agent, entry_str, entry_status.
  destruct (dict_get "id" d) as [[| | |i| |]|]; try discriminate;
  destruct (dict_get "url" d) as [[| | |u| |]|]; try discriminate;
  destruct (dict_get "status" d) as [[| | |s| |]|]; try discriminate;
  intros H; injection H as <-; reflexivity.
Qed.

Lemma load_entries_objects (ds : list (dict json)) :
  Forall accepted ds ->
  forall w,
    load_entries (map JObj ds) w =
    (Ok tt, mkWorld (registry_file w) (writable w)
                    (_agents w ++ map entry_agent (filter has_required ds))
                    (trace w ++ map skip_warning (skipped ds))).
Proof.
  induction 1 as [|d ds Hd Hds IH]; intros w; simpl.
  - unfold ret. rewrite !app_nil_r. now destruct w.
  - unfold bind at 1, lift. rewrite missing_required_obj.
    unfold skipped; simpl.
    destruct (has_required d) eqn:Hreq; simpl.
    + destruct (Hd Hreq) as [a Ha].
      unfold bind, lift, append_agent. rewrite Ha.
      rewrite (Agent_init_entry_agent _ _ Ha).
      specialize (IH (mkWorld (registry_file w) (writable w)
                              (_agents w ++ [entry_agent d]) (trace w))).
      simpl in IH. unfold bind in IH.
      etransitivity; [exact IH|].
      now rewrite <- app_assoc.
    + unfold bind, log, emit.
      specialize (IH (mkWorld (registry_file w) (writable w) (_agents w)
                              (trace w ++ [skip_warning d]))).
      simpl in IH. etransitivity; [exact IH|].
      now rewrite <- app_assoc.
Qed.

(** A load from a registry file that holds a list of objects. *)
Lemma load_registry_objects (w : world) (ds : list (dict json)) :
  registry_file w = Content (JArr (map JObj ds)) ->
  Forall accepted ds ->
  load_registry w =
  (Ok tt,
   mkWorld (registry_file w) (writable w)
           (map entry_agent (filter has_required ds))
           (trace w ++ [OpenRead] ++ map skip_warning (skipped ds)
              ++ [Log INFO (LoadedAgents (length (filter has_required ds)))])).
Proof.
  intros Hfile Hacc. destruct w as [f wr ags tr]. cbn in Hfile. subst f.
  unfold load_registry, try_except_only, read_registry_file, bind. cbn.
  rewrite (load_entries_objects ds Hacc). cbn.
  rewrite length_map, <- !app_assoc. reflexivity.
Qed.

Lemma filter_length_split {A : Type} (f : A -> bool) (l : list A) :
  length (filter f l) = length l - length (filter (fun x => negb (f x)) l).
Proof.
  pose proof (filter_length f l) as H. lia.
Qed.

(** C5, amended: from a registry file holding a sequence of candidate
    entries that are JSON objects, each of which the agent constructor
    accepts when it has an [id] and a [url],
    [load_registry] returns normally; the entries missing [id] or [url] are
    skipped, each with a warning; the loaded records are exactly those built
    from the remaining entries, in order, so that no record comes from a
    skipped entry; and the number of loaded records is the number of entries
    minus the number of skipped ones. *)
Theorem load_registry_skips_invalid (w : world) (ds : list (dict json)) :
  registry_file w = Content (JArr (map JObj ds)) ->
  Forall accepted ds ->
  exists w',
    (load_registry ;; list_agents) w =
      (Ok (map entry_agent (filter has_required ds)), w')
    /\ (forall a, In a (_agents w') ->
          exists d, In d ds /\ has_required d = true /\ a = entry_agent d)
    /\ length (_agents w') = length ds - length (skipped ds)
    /\ (forall d, In d (skipped ds) -> In (skip_warning d) (trace w'))
    /\ trace w' =
         trace w ++ [OpenRead] ++ map skip_warning (skipped ds)
           ++ [Log INFO (LoadedAgents (length (_agents w')))].
Proof.
  intros Hfile Hacc.
  eexists. split.
  - unfold bind. rewrite (load_registry_objects w ds Hfile Hacc).
    unfold list_agents, get_agents. cbn [_agents]. reflexivity.
  - cbn [_agents trace]. repeat split.
    + intros a Ha. apply in_map_iff in Ha as [d [<- Hd]].
      apply filter_In in Hd as [Hin Hreq]. now exists d.
    + rewrite length_map. apply filter_length_split.
    + intros d Hd. apply in_or_app; right. apply in_or_app; right.
      apply in_or_app; left. now apply in_map.
    + now rewrite length_map.
Qed.

Lemma load_registry_skips_invalid_witness :
  exists w',
    (load_registry ;; list_agents) sample_world =
      (Ok (map entry_agent (filter has_required sample_entries)), w')
    /\ (forall a, In a (_agents w') ->
          exists d, In d sample_entries /\ has_required d = true /\ a = entry_agent d)
    /\ length (_agents w') = length sample_entries - length (skipped sample_entries)
    /\ (forall d, In d (skipped sample_entries) -> In (skip_warning d) (trace w'))
    /\ trace w' =
         trace sample_world ++ [OpenRead] ++ map skip_warning (skipped sample_entries)
           ++ [Log INFO (LoadedAgents (length (_agents w')))].
Proof.
  apply (load_registry_skips_invalid sample_world sample_entries).
  - reflexivity.
  - repeat constructor; unfold accepted; cbn; intros H;
      try discriminate; eexists; reflexivity.
Defined.

(** C5, as stated, fails for a candidate entry that is not an object: at
    the entries [null, {"id": "c"}] the membership test on [null] raises
    [TypeError], the load is aborted, and the entry without a [url] behind
    it is neither skipped nor given its warning. *)
Lemma load_registry_null_entry_aborts :
  load_registry
    (mkWorld (Content (JArr [JNull; JObj [("id", JStr "c")]])) true [] [])
  = (Raise TypeError,
     mkWorld (Content (JArr [JNull; JObj [("id", JStr "c")]])) true [] [OpenRead])
  /\ ~ In (Log WARNING (SkippingInvalidEntry (JObj [("id", JStr "c")])))
          (trace (snd (load_registry
             (mkWorld (Content (JArr [JNull; JObj [("id", JStr "c")]])) true [] [])))).
Proof.
  split; [reflexivity|].
  cbn. intros [H|[]]. discriminate H.
Qed.




(** C3, as stated, fails for a source that is present but unreadable: the
    exception raised by the read reaches the caller of [load_registry]. *)
Lemma load_registry_unreadable_raises :
  fst (load_registry (mkWorld Unreadable true [] [])) = Raise PermissionError
  /\ fst (load_registry (mkWorld Malformed true [] [])) = Raise JSONDecodeError.
Proof. split; reflexivity. Qed.

(** C3, amended: when the registry file is missing, [load_registry] returns
    normally, the registry is empty afterwards, and an error is logged. *)
Theorem load_registry_missing_file (w : world) :
  registry_file w = Absent ->
  load_registry w =
  (Ok tt, mkWorld Absent (writable w) []
                  (trace w ++ [OpenRead; Log ERROR RegistryFileNotFound])).
Proof.
  intros Hfile. destruct w as [f wr ags tr]. cbn in Hfile. subst f.
  unfold load_registry, try_except_only, read_registry_file, bind. cbn.
  now rewrite <- app_assoc.
Qed.

Lemma load_registry_missing_file_witness :
  load_registry (mkWorld Absent false [mkAgent "a" "http://x" "healthy" []] []) =
  (Ok tt, mkWorld Absent false [] [OpenRead; Log ERROR RegistryFileNotFound]).
Proof.
  apply (load_registry_missing_file
           (mkWorld Absent false [mkAgent "a" "http://x" "healthy" []] [])).
  reflexivity.
Defined.

(** ** Running the operations *)

(** Unfolds the monad and runs the operations as far as they go. *)
Ltac run_py :=
  unfold try_except, try_except_only, bind, ret, raise, lift, log, emit,
    set_status, get_status, get_agents, set_agents, read_registry_file,
    write_registry_file, client_get;
  cbn.

(** Closes an equation between two worlds whose traces differ by the
    bracketing of their concatenations. *)
Ltac same_world := cbn; rewrite <- ?app_assoc; reflexivity.

Lemma save_registry_statuses_run (w : world) :
  save_registry_statuses w =
  (Ok tt,
   mkWorld (file_after_save (registry_file w) (writable w) (_agents w))
           (writable w) (_agents w)
           (trace w ++ save_events (registry_file w) (writable w) (_agents w))).
Proof.
  destruct w as [f wr ags tr].
  unfold save_registry_statuses, file_after_save, save_events. run_py.
  destruct f as [| | |j]; try same_world. cbn.
  destruct (py_iter j) as [entries|e]; [|same_world]. cbn.
  destruct (overlay_entries _ entries) as [entries'|e];
    [|same_world].
  destruct wr; same_world.
Qed.

Lemma check_agent_run (net : network) (i : nat) (a : Agent) (w : world) :
  check_agent net i a w =
  (Ok tt,
   mkWorld (registry_file w) (writable w)
           (update_nth i (set_agent_status (probe_status (net (health_url a))))
                       (_agents w))
           (trace w ++ probe_events net a)).
Proof.
  destruct w as [f wr ags tr].
  unfold check_agent, probe_events, probe_status, Response_json, py_get. run_py.
  destruct (net (health_url a)) as [e|[code b]]; [same_world|]. cbn.
  destruct (code =? 200)%Z, b as [j|]; try same_world.
  destruct j; try same_world.
  destruct (dict_get "status" fields) as [v|]; [|same_world].
  destruct (json_eq_str v "healthy"); same_world.
Qed.

Lemma update_nth_app {A : Type} (f : A -> A) (pre : list A) (x : A) (post : list A) :
  update_nth (length pre) f (pre ++ x :: post) = pre ++ f x :: post.
Proof.
  induction pre as [|y pre IH]; cbn; [reflexivity | now rewrite IH].
Qed.

Lemma nth_error_update_nth {A : Type} (f : A -> A) (l : list A) (i : nat) (x : A) :
  nth_error l i = Some x -> nth_error (update_nth i f l) i = Some (f x).
Proof.
  revert i. induction l as [|y l IH]; intros [|i]; cbn; try discriminate.
  - now intros [= ->].
  - apply IH.
Qed.

(** The loop of the sweep: the agents are probed one after the other, each
    one's status being set before the next one is probed. *)
Lemma check_agents_from_run (net : network) (agents : list Agent) :
  forall (pre post : list Agent) (w : world),
    _agents w = pre ++ agents ++ post ->
    check_agents_from net (length pre) agents w =
    (Ok tt,
     mkWorld (registry_file w) (writable w)
             (pre ++ map (probed net) agents ++ post)
             (trace w ++ flat_map (probe_events net) agents)).
Proof.
  induction agents as [|a rest IH]; intros pre post w Hw; cbn [check_agents_from].
  - unfold ret. cbn in *. rewrite app_nil_r, <- Hw. now destruct w.
  - unfold bind at 1. rewrite check_agent_run.
    specialize (IH (pre ++ [probed net a]) post
                   (mkWorld (registry_file w) (writable w)
                            (update_nth (length pre)
                               (set_agent_status (probe_status (net (health_url a))))
                               (_agents w))
                            (trace w ++ probe_events net a))).
    rewrite length_app, Nat.add_comm in IH. cbn [length Nat.add] in IH.
    cbv beta iota. rewrite IH.
    + cbn. rewrite <- !app_assoc. reflexivity.
    + rewrite Hw. cbn. rewrite update_nth_app, <- app_assoc. reflexivity.
Qed.

Lemma health_check_agents_run (net : network) (w : world) :
  health_check_agents net w =
  (Ok tt,
   let agents' := map (probed net) (_agents w) in
   mkWorld (file_after_save (registry_file w) (writable w) agents')
           (writable w) agents'
           (trace w ++ flat_map (probe_events net) (_agents w)
              ++ save_events (registry_file w) (writable w) agents'
              ++ [Log INFO HealthChecksComplete])).
Proof.
  unfold health_check_agents.
  unfold bind at 1, get_agents at 1.
  unfold bind at 1.
  pose proof (check_agents_from_run net (_agents w) [] [] w) as Hloop.
  cbn [length app] in Hloop. rewrite !app_nil_r in Hloop.
  rewrite (Hloop eq_refl).
  unfold bind at 1, try_except. rewrite save_registry_statuses_run.
  unfold log, emit. cbn. rewrite <- !app_assoc. reflexivity.
Qed.

Lemma find_agent_nth (agent_id : string) (agents : list Agent) :
  forall k i a,
    find_agent agent_id k agents = Some (i, a) ->
    k <= i /\ nth_error agents (i - k) = Some a /\ id a = agent_id.
Proof.
  induction agents as [|b rest IH]; intros k i a; cbn; [discriminate|].
  destruct (String.eqb_spec (id b) agent_id) as [Heq|Hne].
  - intros [= <- <-]. rewrite Nat.sub_diag. auto.
  - intros H. apply IH in H as (Hle & Hnth & Hid).
    repeat split; [lia| |assumption].
    replace (i - k) with (S (i - S k)) by lia. exact Hnth.
Qed.

Lemma live_probe_run (net : network) (agent_id : string) (i : nat)
      (a : Agent) (w : world) :
  live_probe net agent_id i a w =
  (Ok tt,
   mkWorld (registry_file w) (writable w)
           (update_nth i (set_agent_status (probe_status (net (health_url a))))
                       (_agents w))
           (trace w ++ live_events net agent_id a)).
Proof.
  destruct w as [f wr ags tr].
  unfold live_probe, live_events, probe_status, Response_json, py_get. run_py.
  destruct (net (health_url a)) as [e|[code b]]; [same_world|]. cbn.
  destruct (code =? 200)%Z, b as [j|]; try same_world.
  destruct j; try same_world.
  destruct (dict_get "status" fields) as [v|]; [|same_world].
  destruct (json_eq_str v "healthy"); same_world.
Qed.

(** The live status query, when the agent is registered. *)
Lemma check_agent_live_status_found (net : network) (agent_id : string)
      (w : world) (i : nat) (a : Agent) :
  find_agent agent_id 0 (_agents w) = Some (i, a) ->
  check_agent_live_status net agent_id w =
  (Ok (probe_status (net (health_url a))),
   let agents' :=
     update_nth i (set_agent_status (probe_status (net (health_url a))))
                (_agents w) in
   mkWorld (file_after_save (registry_file w) (writable w) agents')
           (writable w) agents'
           (trace w ++ live_events net agent_id a
              ++ save_events (registry_file w) (writable w) agents')).
Proof.
  intros Hfind.
  pose proof (find_agent_nth _ _ _ _ _ Hfind) as (_ & Hnth & _).
  rewrite Nat.sub_0_r in Hnth.
  pose proof (nth_error_update_nth
                (set_agent_status (probe_status (net (health_url a))))
                _ _ _ Hnth) as Hupd.
  unfold check_agent_live_status.
  unfold bind at 1, get_agents at 1. rewrite Hfind.
  unfold bind at 1. rewrite live_probe_run.
  unfold bind at 1, try_except. rewrite save_registry_statuses_run.
  unfold get_status. cbn. rewrite Hupd. cbn.
  rewrite <- !app_assoc. reflexivity.
Qed.

Lemma check_agent_live_status_absent (net : network) (agent_id : string)
      (w : world) :
  find_agent agent_id 0 (_agents w) = None ->
  check_agent_live_status net agent_id w = (Ok "not_found", w).
Proof.
  intros Hfind. unfold check_agent_live_status, bind, get_agents.
  now rewrite Hfind.
Qed.

(** ** Classification of probes *)

Lemma json_eq_str_true (v : json) (s : string) :
  json_eq_str v s = true <-> v = JStr s.
Proof.
  destruct v; cbn; try (split; [discriminate | intros [=]]).
  split.
  - intros H. apply String.eqb_eq in H. now subst.
  - intros [= ->]. apply String.eqb_refl.
Qed.

Lemma probe_status_classified (r : http_result) : classified r (probe_status r).
Proof.
  unfold classified, probe_status. repeat split.
  - now intros e ->.
  - intros resp -> Hcode. apply Z.eqb_neq in Hcode. now rewrite Hcode.
  - intros resp d -> Hcode Hbody Hst. rewrite Hcode, Hbody, Hst. reflexivity.
  - intros resp d -> Hcode Hbody Hst. rewrite Hcode, Hbody. cbn.
    destruct (dict_get "status" d) as [v|]; [|reflexivity].
    destruct (json_eq_str v "healthy") eqn:E; [|reflexivity].
    apply json_eq_str_true in E. subst v. now elim Hst.
Qed.

Lemma Forall2_map_r {A B : Type} (R : A -> B -> Prop) (f : A -> B) (l : list A) :
  (forall x, R x (f x)) -> Forall2 R l (map f l).
Proof.
  intros H. induction l; cbn; constructor; auto.
Qed.

(** C1, as stated, fails: an agent answering 201 with the body
    [{"status": "healthy"}], which the stated classification calls
    [healthy], is set [offline] by the sweep and by the live status query. *)
Lemma probe_201_healthy_body_offline :
  claimed_status (net_201 "http://x/health") = "healthy"
  /\ map status (_agents (snd (health_check_agents net_201 one_agent_world)))
     = ["offline"]
  /\ fst (check_agent_live_status net_201 "a" one_agent_world) = Ok "offline".
Proof. repeat split. Qed.

(** C1, amended: for every probe of the sweep and of the live status query,
    a transport failure, a timeout or a response with a status code other
    than 200 leaves the agent [offline]; a 200 response whose body parses to
    an object with a status field equal to [healthy] leaves it [healthy];
    a 200 response whose body parses to an object without such a field
    leaves it [offline]. *)
Theorem probe_classification (net : network) (w : world) :
  Forall2 (fun a a' =>
             id a' = id a /\ url a' = url a
             /\ classified (net (health_url a)) (status a'))
          (_agents w) (_agents (snd (health_check_agents net w)))
  /\ (forall agent_id i a,
        find_agent agent_id 0 (_agents w) = Some (i, a) ->
        exists s w',
          check_agent_live_status net agent_id w = (Ok s, w')
          /\ classified (net (health_url a)) s
          /\ nth_error (_agents w') i = Some (set_agent_status s a)).
Proof.
  split.
  - rewrite health_check_agents_run. cbn [snd _agents].
    apply Forall2_map_r. intros a. cbn. auto using probe_status_classified.
  - intros agent_id i a Hfind.
    rewrite (check_agent_live_status_found net agent_id w i a Hfind).
    do 2 eexists. split; [reflexivity|]. split.
    + apply probe_status_classified.
    + cbn [_agents]. apply nth_error_update_nth.
      apply find_agent_nth in Hfind as (_ & Hnth & _).
      now rewrite Nat.sub_0_r in Hnth.
Qed.

Lemma probe_classification_witness :
  exists s w',
    check_agent_live_status net_healthy "a" one_agent_world = (Ok s, w')
    /\ classified (net_healthy (health_url (mkAgent "a" "http://x" "unknown" []))) s
    /\ nth_error (_agents w') 0
       = Some (set_agent_status s (mkAgent "a" "http://x" "unknown" [])).
Proof.
  apply (proj2 (probe_classification net_healthy one_agent_world) "a" 0).
  reflexivity.
Defined.

(** ** The live status query *)

(** C7 at a 200 response whose body is not JSON: the live status query
    answers [healthy]. *)
Theorem live_status_of_plain_200 :
  check_agent_live_status net_plain_200 "a" one_agent_world
  = (Ok "healthy",
     mkWorld (Content (JArr [JObj [("id", JStr "a"); ("url", JStr "http://x");
                                   ("status", JStr "healthy")]]))
             true [mkAgent "a" "http://x" "healthy" []]
             [HttpSend "http://x/health";
              HttpRecv "http://x/health" (Replied (mkResponse 200 None));
              OpenRead; OpenWrite; Log INFO PersistedStatuses]).
Proof. reflexivity. Qed.

(** ** The sweep *)

Lemma filter_flat_map {A B : Type} (p : B -> bool) (g : A -> list B) (l : list A) :
  filter p (flat_map g l) = flat_map (fun x => filter p (g x)) l.
Proof.
  induction l as [|x l IH]; cbn; [reflexivity|].
  now rewrite filter_app, IH.
Qed.

Lemma probe_events_http (net : network) (a : Agent) :
  filter is_http (probe_events net a) = http_exchange net a.
Proof.
  unfold probe_events, http_exchange. cbn.
  now destruct (net (health_url a)).
Qed.

Lemma probe_events_file (net : network) (a : Agent) :
  filter is_file (probe_events net a) = [].
Proof.
  unfold probe_events. cbn. now destruct (net (health_url a)).
Qed.

Lemma save_events_shape (f : file_state) (wr : bool) (agents : list Agent) :
  hd_error (save_events f wr agents) = Some OpenRead
  /\ filter is_http (save_events f wr agents) = [].
Proof.
  unfold save_events.
  destruct (overlaid_file f agents); [destruct wr|]; split; reflexivity.
Qed.

(** C9, as stated, fails: in a sweep over two agents the result of the first
    probe has come back before the second probe is sent. *)
Lemma sweep_not_fired_then_awaited :
  fired_then_awaited (trace (snd (health_check_agents net_healthy two_agent_world)))
  = false
  /\ filter is_http (trace (snd (health_check_agents net_healthy two_agent_world)))
     = [HttpSend "http://x/health";
        HttpRecv "http://x/health" (net_healthy "http://x/health");
        HttpSend "http://y/health";
        HttpRecv "http://y/health" (net_healthy "http://y/health")].
Proof. split; reflexivity. Qed.

(** C9, amended: within one sweep the probes are issued one after the
    other, in the order of the registry: each agent's request goes out only
    when the result of the previous agent's probe has come back; every
    agent is probed exactly once, whatever the outcome of the other probes;
    and the registry file is opened for the persistence of the statuses
    only after the last probe has resolved. *)
Theorem sweep_probes_in_sequence (net : network) (w : world) :
  exists persist,
    health_check_agents net w
    = (Ok tt, snd (health_check_agents net w))
    /\ trace (snd (health_check_agents net w))
       = trace w ++ flat_map (probe_events net) (_agents w)
           ++ persist ++ [Log INFO HealthChecksComplete]
    /\ filter is_http (flat_map (probe_events net) (_agents w))
       = flat_map (http_exchange net) (_agents w)
    /\ filter is_file (flat_map (probe_events net) (_agents w)) = []
    /\ hd_error persist = Some OpenRead
    /\ filter is_http persist = [].
Proof.
  rewrite health_check_agents_run. cbn [snd trace].
  eexists. split; [reflexivity|]. split; [reflexivity|].
  split; [|split; [|apply save_events_shape]].
  - rewrite filter_flat_map. apply flat_map_ext. apply probe_events_http.
  - rewrite filter_flat_map. induction (_agents w) as [|a l IH]; [reflexivity|].
    cbn [flat_map]. rewrite IH, probe_events_file. reflexivity.
Qed.

(** ** Persisting twice *)

Lemma overlay_entry_idem (m : dict string) (entry entry' : json) :
  overlay_entry m entry = Ok entry' -> overlay_entry m entry' = Ok entry'.
Proof.
  unfold overlay_entry.
  destruct entry as [| | | | |d]; cbn; try discriminate.
  destruct (dict_get "id" d) as [aid|] eqn:Hid; cbn.
  - destruct aid as [| | |k| |]; cbn; try discriminate;
      try (intros [= <-]; cbn; rewrite Hid; reflexivity).
    unfold dict_has. destruct (dict_get k m) as [s|] eqn:Hk.
    + intros [= <-]. cbn.
      rewrite dict_get_set_other by discriminate. rewrite Hid. cbn.
      unfold dict_has. rewrite Hk. now rewrite dict_set_idem.
    + intros [= <-]. cbn. rewrite Hid. cbn. unfold dict_has. now rewrite Hk.
  - intros [= <-]. cbn. now rewrite Hid.
Qed.

Lemma overlay_entries_idem (m : dict string) (entries : list json) :
  forall entries',
    overlay_entries m entries = Ok entries' ->
    overlay_entries m entries' = Ok entries'.
Proof.
  induction entries as [|entry rest IH]; intros entries'; cbn.
  - now intros [= <-].
  - destruct (overlay_entry m entry) as [entry1|] eqn:H1; [|discriminate].
    destruct (overlay_entries m rest) as [rest1|] eqn:H2; [|discriminate].
    intros [= <-]. cbn.
    now rewrite (overlay_entry_idem _ _ _ H1), (IH _ eq_refl).
Qed.

Lemma overlaid_file_idem (f : file_state) (agents : list Agent) (j' : json) :
  overlaid_file f agents = Ok j' ->
  overlaid_file (Content j') agents = Ok j'.
Proof.
  destruct f as [| | |j]; cbn; try discriminate.
  destruct (py_iter j) as [entries|] eqn:Hiter; [|discriminate].
  destruct (overlay_entries (build_status_map agents) entries) as [entries'|] eqn:Hov;
    [|discriminate].
  intros [= <-].
  destruct j; cbn in *; try discriminate; injection Hiter as <-.
  - now rewrite Hov.
  - now rewrite (overlay_entries_idem _ _ _ Hov).
  - now rewrite Hov.
Qed.

Lemma file_after_save_idem (f : file_state) (wr : bool) (agents : list Agent) :
  file_after_save (file_after_save f wr agents) wr agents
  = file_after_save f wr agents.
Proof.
  unfold file_after_save at 2 3.
  destruct (overlaid_file f agents) as [j'|e] eqn:H.
  - destruct wr.
    + unfold file_after_save. now rewrite (overlaid_file_idem _ _ _ H).
    + unfold file_after_save. now rewrite H.
  - unfold file_after_save. now rewrite H.
Qed.

Lemma probed_idem (net : network) (a : Agent) :
  probed net (probed net a) = probed net a.
Proof. reflexivity. Qed.

(** C8: a second sweep over a fleet whose probes give the same outcomes
    leaves the in-memory records, and so their statuses, and the content of
    the registry file as the first sweep left them. *)
Theorem sweep_idempotent (net : network) (w : world) :
  let w1 := snd (health_check_agents net w) in
  let w2 := snd (health_check_agents net w1) in
  _agents w2 = _agents w1
  /\ map status (_agents w2) = map status (_agents w1)
  /\ registry_file w2 = registry_file w1.
Proof.
  cbv zeta. rewrite !health_check_agents_run. cbn [snd _agents registry_file writable].
  assert (Hag : map (probed net) (map (probed net) (_agents w))
                = map (probed net) (_agents w)).
  { rewrite map_map. apply map_ext. intros a. apply probed_idem. }
  rewrite Hag. repeat split. apply file_after_save_idem.
Qed.

(** ** Persisting the statuses *)

Lemma fold_status_map_get (agents : list Agent) (k : string) :
  forall m : dict string,
    dict_get k (fold_left (fun m a => dict_set (id a) (status a) m) agents m)
    = match last_status agents k with
      | Some s => Some s
      | None => dict_get k m
      end.
Proof.
  induction agents as [|a rest IH]; intros m; cbn; [reflexivity|].
  rewrite IH. destruct (last_status rest k); [reflexivity|].
  destruct (String.eqb_spec (id a) k) as [<-|Hne].
  - apply dict_get_set_same.
  - apply dict_get_set_other. congruence.
Qed.

(** The status map holds, for each id, the status of the last record with
    that id. *)
Lemma build_status_map_get (agents : list Agent) (k : string) :
  dict_get k (build_status_map agents) = last_status agents k.
Proof.
  unfold build_status_map. rewrite fold_status_map_get.
  now destruct (last_status agents k).
Qed.

Lemma last_status_none (agents : list Agent) (k : string) :
  last_status agents k = None <-> (forall a, In a agents -> id a <> k).
Proof.
  induction agents as [|a rest IH]; cbn.
  - split; [intros _ b [] | reflexivity].
  - destruct (last_status rest k) as [s|].
    + split; [discriminate|]. intros H.
      destruct IH as [_ IH]. discriminate IH. intros b Hb. apply H. now right.
    + destruct (String.eqb_spec (id a) k) as [Heq|Hne].
      * split; [discriminate|]. intros H. exfalso. apply (H a); auto.
      * split; [|reflexivity]. intros _ b [<-|Hb]; [assumption|].
        now apply IH.
Qed.

Lemma last_status_some (agents : list Agent) (k s : string) :
  last_status agents k = Some s ->
  exists a, In a agents /\ id a = k /\ status a = s.
Proof.
  induction agents as [|a rest IH]; cbn; [discriminate|].
  destruct (last_status rest k) as [s'|].
  - intros [= <-]. destruct (IH eq_refl) as (b & Hb & Hid & Hst).
    exists b. auto.
  - destruct (String.eqb_spec (id a) k) as [Heq|Hne]; [|discriminate].
    intros [= <-]. exists a. auto.
Qed.

(** The record that decides: the last one with the id. *)
Lemma last_status_last (pre post : list Agent) (a : Agent) :
  (forall b, In b post -> id b <> id a) ->
  last_status (pre ++ a :: post) (id a) = Some (status a).
Proof.
  intros Hpost. induction pre as [|b pre IH]; cbn.
  - apply last_status_none in Hpost. rewrite Hpost.
    now rewrite String.eqb_refl.
  - now rewrite IH.
Qed.

Lemma overlay_entry_object (agents : list Agent) (d : dict json) :
  hashable_id d = true ->
  overlay_entry (build_status_map agents) (JObj d)
  = Ok (JObj (overlay_dict agents d)).
Proof.
  unfold overlay_entry, overlay_dict, hashable_id. cbn.
  destruct (dict_get "id" d) as [[| | |k| |]|]; cbn; try reflexivity;
    try discriminate.
  intros _. unfold dict_has. rewrite build_status_map_get.
  now destruct (last_status agents k).
Qed.

Lemma overlay_entries_objects (agents : list Agent) (ds : list (dict json)) :
  Forall (fun d => hashable_id d = true) ds ->
  overlay_entries (build_status_map agents) (map JObj ds)
  = Ok (map JObj (map (overlay_dict agents) ds)).
Proof.
  induction 1 as [|d ds Hd Hds IH]; cbn [map overlay_entries]; [reflexivity|].
  now rewrite (overlay_entry_object agents d Hd), IH.
Qed.

(** A flush onto a writable registry file that holds a list of objects. *)
Lemma save_registry_statuses_objects (w : world) (ds : list (dict json)) :
  registry_file w = Content (JArr (map JObj ds)) ->
  writable w = true ->
  Forall (fun d => hashable_id d = true) ds ->
  save_registry_statuses w
  = (Ok tt,
     mkWorld (Content (JArr (map JObj (map (overlay_dict (_agents w)) ds))))
             true (_agents w)
             (trace w ++ [OpenRead; OpenWrite; Log INFO PersistedStatuses])).
Proof.
  intros Hfile Hwr Hds. rewrite save_registry_statuses_run.
  unfold file_after_save, save_events, overlaid_file.
  rewrite Hfile, Hwr. cbn [py_iter].
  now rewrite (overlay_entries_objects (_agents w) ds Hds).
Qed.

Lemma overlay_dict_frame (agents : list Agent) (d : dict json) :
  dict_without "status" (overlay_dict agents d) = dict_without "status" d.
Proof.
  unfold overlay_dict.
  destruct (dict_get "id" d) as [[| | |k| |]|]; try reflexivity.
  destruct (last_status agents k); [apply dict_without_set | reflexivity].
Qed.

(** C4: on a writable registry file holding a sequence of entries,
    [save_registry_statuses] reads the file again, then writes it back with
    the same entries in the same order, where every entry whose [id] is the
    id of a loaded record has the status of such a record as its [status],
    every field other than [status] is as it was, in the same order, and an
    entry whose [id] is the id of no loaded record is as it was. *)
Theorem save_registry_statuses_overlay (w : world) (ds : list (dict json)) :
  registry_file w = Content (JArr (map JObj ds)) ->
  writable w = true ->
  Forall (fun d => hashable_id d = true) ds ->
  exists w' ds',
    save_registry_statuses w = (Ok tt, w')
    /\ _agents w' = _agents w
    /\ trace w' = trace w ++ [OpenRead; OpenWrite; Log INFO PersistedStatuses]
    /\ registry_file w' = Content (JArr (map JObj ds'))
    /\ Forall2
         (fun d d' =>
            dict_without "status" d' = dict_without "status" d
            /\ (forall k, dict_get "id" d = Some (JStr k) ->
                  (exists a, In a (_agents w) /\ id a = k) ->
                  exists a, In a (_agents w) /\ id a = k
                            /\ d' = dict_set "status" (JStr (status a)) d
                            /\ dict_get "status" d' = Some (JStr (status a))
                            /\ dict_get "id" d' = dict_get "id" d)
            /\ ((forall a, In a (_agents w) -> dict_get "id" d <> Some (JStr (id a))) ->
                d' = d))
         ds ds'.
Proof.
  intros Hfile Hwr Hds.
  exists (mkWorld (Content (JArr (map JObj (map (overlay_dict (_agents w)) ds))))
                  true (_agents w)
                  (trace w ++ [OpenRead; OpenWrite; Log INFO PersistedStatuses])).
  exists (map (overlay_dict (_agents w)) ds).
  split; [exact (save_registry_statuses_objects w ds Hfile Hwr Hds)|].
  cbn [_agents trace registry_file]. repeat split.
  apply Forall2_map_r. intros d. split; [apply overlay_dict_frame|]. split.
  - intros k Hid [a (Ha & Hk)]. unfold overlay_dict. rewrite Hid.
    destruct (last_status (_agents w) k) as [s|] eqn:Hlast.
    + apply last_status_some in Hlast as (b & Hb & Hbk & <-).
      exists b. repeat split; try assumption.
      * apply dict_get_set_same.
      * rewrite dict_get_set_other by discriminate. exact Hid.
    + exfalso. rewrite last_status_none in Hlast. now apply (Hlast a).
  - intros Hnone. unfold overlay_dict.
    destruct (dict_get "id" d) as [[| | |k| |]|] eqn:Hid; try reflexivity.
    destruct (last_status (_agents w) k) as [s|] eqn:Hlast; [|reflexivity].
    apply last_status_some in Hlast as (b & Hb & Hbk & _).
    exfalso. apply (Hnone b Hb). now rewrite Hbk.
Qed.

Lemma save_registry_statuses_overlay_witness :
  exists w' ds',
    save_registry_statuses duplicate_world = (Ok tt, w')
    /\ _agents w' = _agents duplicate_world
    /\ trace w' = trace duplicate_world ++ [OpenRead; OpenWrite; Log INFO PersistedStatuses]
    /\ registry_file w' = Content (JArr (map JObj ds'))
    /\ Forall2
         (fun d d' =>
            dict_without "status" d' = dict_without "status" d
            /\ (forall k, dict_get "id" d = Some (JStr k) ->
                  (exists a, In a (_agents duplicate_world) /\ id a = k) ->
                  exists a, In a (_agents duplicate_world) /\ id a = k
                            /\ d' = dict_set "status" (JStr (status a)) d
                            /\ dict_get "status" d' = Some (JStr (status a))
                            /\ dict_get "id" d' = dict_get "id" d)
            /\ ((forall a, In a (_agents duplicate_world) ->
                   dict_get "id" d <> Some (JStr (id a))) ->
                d' = d))
         [ [("id", JStr "a"); ("url", JStr "http://x"); ("rank", JNum 1)];
           [("id", JStr "z"); ("url", JStr "http://z"); ("status", JStr "unknown")];
           [("id", JStr "a"); ("url", JStr "http://y"); ("status", JStr "unknown")] ]
         ds'.
Proof.
  apply (save_registry_statuses_overlay duplicate_world).
  - reflexivity.
  - reflexivity.
  - repeat constructor.
Defined.

(** ** Records with the same id *)

Lemma find_agent_first (agent_id : string) (pre post : list Agent) (a : Agent) :
  id a = agent_id ->
  (forall b, In b pre -> id b <> agent_id) ->
  forall k,
    find_agent agent_id k (pre ++ a :: post) = Some (k + length pre, a).
Proof.
  intros Ha. induction pre as [|b pre IH]; intros Hpre k; cbn.
  - rewrite <- Ha, String.eqb_refl, Nat.add_0_r. reflexivity.
  - destruct (String.eqb_spec (id b) agent_id) as [Heq|Hne].
    + exfalso. apply (Hpre b); [now left | assumption].
    + rewrite IH by (intros c Hc; apply Hpre; now right).
      f_equal. f_equal. lia.
Qed.

(** C10: when the registry holds several records with the same id,
    [get_agent] returns the first of them in load order, while
    [save_registry_statuses] gives every disk entry with that id the status
    of the last of them. *)
Theorem duplicate_ids_first_read_last_persisted
        (w : world) (pre mid post : list Agent) (first last : Agent)
        (ds : list (dict json)) :
  _agents w = pre ++ first :: mid ++ last :: post ->
  id first = id last ->
  (forall b, In b pre -> id b <> id first) ->
  (forall b, In b post -> id b <> id last) ->
  registry_file w = Content (JArr (map JObj ds)) ->
  writable w = true ->
  Forall (fun d => hashable_id d = true) ds ->
  get_agent (id first) w = (Ok (Some first), w)
  /\ dict_get (id last) (build_status_map (_agents w)) = Some (status last)
  /\ exists w' ds',
       save_registry_statuses w = (Ok tt, w')
       /\ registry_file w' = Content (JArr (map JObj ds'))
       /\ Forall2 (fun d d' =>
                     dict_get "id" d = Some (JStr (id last)) ->
                     d' = dict_set "status" (JStr (status last)) d
                     /\ dict_get "status" d' = Some (JStr (status last)))
                  ds ds'.
Proof.
  intros Hag Hid Hpre Hpost Hfile Hwr Hds.
  assert (Hlast : last_status (_agents w) (id last) = Some (status last)).
  { rewrite Hag.
    replace (pre ++ first :: mid ++ last :: post)
      with ((pre ++ first :: mid) ++ last :: post)
      by (now rewrite <- app_assoc).
    now apply last_status_last. }
  split; [|split].
  - unfold get_agent, bind, get_agents, ret. rewrite Hag.
    now rewrite (find_agent_first (id first) pre (mid ++ last :: post) first
                   eq_refl Hpre 0).
  - now rewrite build_status_map_get.
  - do 2 eexists. split; [exact (save_registry_statuses_objects w ds Hfile Hwr Hds)|].
    cbn [registry_file]. split; [reflexivity|].
    apply Forall2_map_r. intros d Hd. unfold overlay_dict.
    rewrite Hd, Hlast. split; [reflexivity | apply dict_get_set_same].
Qed.

Lemma duplicate_ids_first_read_last_persisted_witness :
  get_agent "a" duplicate_world
  = (Ok (Some (mkAgent "a" "http://x" "healthy" [])), duplicate_world)
  /\ dict_get "a" (build_status_map (_agents duplicate_world)) = Some "offline"
  /\ exists w' ds',
       save_registry_statuses duplicate_world = (Ok tt, w')
       /\ registry_file w' = Content (JArr (map JObj ds'))
       /\ Forall2 (fun d d' =>
                     dict_get "id" d = Some (JStr "a") ->
                     d' = dict_set "status" (JStr "offline") d
                     /\ dict_get "status" d' = Some (JStr "offline"))
            [ [("id", JStr "a"); ("url", JStr "http://x"); ("rank", JNum 1)];
              [("id", JStr "z"); ("url", JStr "http://z"); ("status", JStr "unknown")];
              [("id", JStr "a"); ("url", JStr "http://y"); ("status", JStr "unknown")] ]
            ds'.
Proof.
  apply (duplicate_ids_first_read_last_persisted
           duplicate_world [] [] []
           (mkAgent "a" "http://x" "healthy" [])
           (mkAgent "a" "http://y" "offline" [])).
  - reflexivity.
  - reflexivity.
  - intros b [].
  - intros b [].
  - reflexivity.
  - reflexivity.
  - repeat constructor.
Defined.

(** ** Failures of the persistence *)

Lemma save_fails (f : file_state) (wr : bool) (agents : list Agent) :
  (f = Absent \/ f = Unreadable \/ f = Malformed) \/ wr = false ->
  file_after_save f wr agents = f
  /\ exists e evs,
       save_events f wr agents = evs ++ [Log ERROR (ErrorSavingStatuses e)].
Proof.
  unfold file_after_save, save_events.
  intros [[-> | [-> | ->]] | ->]; cbn.
  - split; [reflexivity|]. now exists FileNotFoundError, [OpenRead].
  - split; [reflexivity|]. now exists PermissionError, [OpenRead].
  - split; [reflexivity|]. now exists JSONDecodeError, [OpenRead].
  - destruct (overlaid_file f agents) as [j'|e]; split; try reflexivity.
    + now exists PermissionError, [OpenRead; OpenWrite].
    + now exists e, [OpenRead].
Qed.

(** C6: when the read or the write of the registry file inside
    [save_registry_statuses] fails, the failure is logged as an error and
    the call returns normally, leaving the in-memory records and the file
    as they were; the sweep and the live status query that triggered it
    return normally too, and the records keep the statuses the probes
    gave them. *)
Theorem persistence_failure_contained (net : network) (w : world) :
  read_fails w \/ write_fails w ->
  (exists e evs,
     save_registry_statuses w
     = (Ok tt, mkWorld (registry_file w) (writable w) (_agents w)
                       (trace w ++ evs ++ [Log ERROR (ErrorSavingStatuses e)])))
  /\ (exists e w',
        health_check_agents net w = (Ok tt, w')
        /\ _agents w' = _agents (snd (check_agents_from net 0 (_agents w) w))
        /\ _agents w' = map (probed net) (_agents w)
        /\ registry_file w' = registry_file w
        /\ In (Log ERROR (ErrorSavingStatuses e)) (trace w'))
  /\ (forall agent_id i a,
        find_agent agent_id 0 (_agents w) = Some (i, a) ->
        exists e s w',
          check_agent_live_status net agent_id w = (Ok s, w')
          /\ _agents w' = _agents (snd (live_probe net agent_id i a w))
          /\ nth_error (_agents w') i = Some (set_agent_status s a)
          /\ registry_file w' = registry_file w
          /\ In (Log ERROR (ErrorSavingStatuses e)) (trace w')).
Proof.
  unfold read_fails, write_fails. intros Hfail. split; [|split].
  - rewrite save_registry_statuses_run.
    destruct (save_fails _ _ (_agents w) Hfail) as (-> & e & evs & ->).
    now exists e, evs.
  - rewrite health_check_agents_run. cbv zeta.
    destruct (save_fails _ _ (map (probed net) (_agents w)) Hfail)
      as (-> & e & evs & ->).
    exists e. eexists. split; [reflexivity|]. cbn [_agents registry_file trace].
    repeat split.
    + pose proof (check_agents_from_run net (_agents w) [] [] w) as Hloop.
      cbn [length app] in Hloop. rewrite !app_nil_r in Hloop.
      now rewrite (Hloop eq_refl).
    + rewrite !in_app_iff. right. right. left. right. now left.
  - intros agent_id i a Hfind.
    rewrite (check_agent_live_status_found net agent_id w i a Hfind). cbv zeta.
    destruct (save_fails _ _
                (update_nth i (set_agent_status (probe_status (net (health_url a))))
                            (_agents w)) Hfail)
      as (-> & e & evs & ->).
    exists e. do 2 eexists. split; [reflexivity|].
    cbn [_agents registry_file trace]. repeat split.
    + now rewrite live_probe_run.
    + apply nth_error_update_nth.
      apply find_agent_nth in Hfind as (_ & Hnth & _).
      now rewrite Nat.sub_0_r in Hnth.
    + rewrite !in_app_iff. right. right. right. now left.
Qed.

Lemma persistence_failure_contained_witness :
  (exists e evs,
     save_registry_statuses (mkWorld Absent true (_agents one_agent_world) [])
     = (Ok tt, mkWorld Absent true (_agents one_agent_world)
                       ([] ++ evs ++ [Log ERROR (ErrorSavingStatuses e)])))
  /\ (exists e w',
        health_check_agents net_healthy (mkWorld Absent true (_agents one_agent_world) [])
        = (Ok tt, w')
        /\ _agents w'
           = _agents (snd (check_agents_from net_healthy 0 (_agents one_agent_world)
                             (mkWorld Absent true (_agents one_agent_world) [])))
        /\ _agents w' = map (probed net_healthy) (_agents one_agent_world)
        /\ registry_file w' = Absent
        /\ In (Log ERROR (ErrorSavingStatuses e)) (trace w'))
  /\ (forall agent_id i a,
        find_agent agent_id 0 (_agents one_agent_world) = Some (i, a) ->
        exists e s w',
          check_agent_live_status net_healthy agent_id
            (mkWorld Absent true (_agents one_agent_world) []) = (Ok s, w')
          /\ _agents w'
             = _agents (snd (live_probe net_healthy agent_id i a
                               (mkWorld Absent true (_agents one_agent_world) [])))
          /\ nth_error (_agents w') i = Some (set_agent_status s a)
          /\ registry_file w' = Absent
          /\ In (Log ERROR (ErrorSavingStatuses e)) (trace w')).
Proof.
  apply (persistence_failure_contained net_healthy
           (mkWorld Absent true (_agents one_agent_world) [])).
  left. left. reflexivity.
Defined.

(** ** What the live status query and [get_agent] always do *)

Lemma probe_status_values (r : http_result) :
  probe_status r = "healthy" \/ probe_status r = "offline".
Proof.
  unfold probe_status.
  destruct r as [e|[code b]]; cbn; [now right|].
  destruct (code =? 200)%Z; [|now right].
  destruct b as [[| | | | |d]|]; try (now left).
  destruct (dict_get "status" d) as [v|]; [|now right].
  destruct (json_eq_str v "healthy"); [now left | now right].
Qed.

Lemma find_agent_none (agent_id : string) (agents : list Agent) :
  forall k,
    (forall a, In a agents -> id a <> agent_id) ->
    find_agent agent_id k agents = None.
Proof.
  induction agents as [|b rest IH]; intros k H; cbn; [reflexivity|].
  destruct (String.eqb_spec (id b) agent_id) as [Heq|Hne].
  - exfalso. apply (H b); [now left | assumption].
  - apply IH. intros a Ha. apply H. now right.
Qed.

(** The live status query never raises and answers one of three strings;
    for an id that is not registered it answers [not_found] and leaves the
    world, its trace included, as it was. *)
Lemma check_agent_live_status_returns (net : network) (agent_id : string)
      (w : world) :
  exists s w',
    check_agent_live_status net agent_id w = (Ok s, w')
    /\ (s = "healthy" \/ s = "offline" \/ s = "not_found")
    /\ ((forall a, In a (_agents w) -> id a <> agent_id) ->
        s = "not_found" /\ w' = w).
Proof.
  destruct (find_agent agent_id 0 (_agents w)) as [[i a]|] eqn:Hfind.
  - rewrite (check_agent_live_status_found net agent_id w i a Hfind).
    do 2 eexists. split; [reflexivity|]. split.
    + destruct (probe_status_values (net (health_url a))) as [-> | ->]; auto.
    + intros Hnone. rewrite (find_agent_none agent_id _ 0 Hnone) in Hfind.
      discriminate.
  - rewrite (check_agent_live_status_absent net agent_id w Hfind).
    do 2 eexists. split; [reflexivity|]. auto.
Qed.

(** [get_agent] on an id that is not registered returns [None]. *)
Lemma get_agent_absent (agent_id : string) (w : world) :
  (forall a, In a (_agents w) -> id a <> agent_id) ->
  get_agent agent_id w = (Ok None, w).
Proof.
  intros Hnone. unfold get_agent, bind, get_agents, ret.
  now rewrite (find_agent_none agent_id _ 0 Hnone).
Qed.

(** * Further properties of the registry module *)

(** ** Loading from a file that is not a list of objects *)

(** X1: when the registry file is present but cannot be read, or does not
    hold JSON, [load_registry] raises the error of the read to its caller
    and leaves the records loaded before, and the file, as they were. *)
Theorem load_registry_unusable_file (w : world) :
  registry_file w = Unreadable \/ registry_file w = Malformed ->
  load_registry w
  = (Raise (read_error (registry_file w)),
     mkWorld (registry_file w) (writable w) (_agents w) (trace w ++ [OpenRead])).
Proof.
  destruct w as [f wr ags tr]. cbn [registry_file writable _agents trace].
  intros [-> | ->]; reflexivity.
Qed.

Lemma load_registry_unusable_file_witness :
  load_registry (mkWorld Malformed true [mkAgent "a" "http://x" "healthy" []] [])
  = (Raise JSONDecodeError,
     mkWorld Malformed true [mkAgent "a" "http://x" "healthy" []] [OpenRead]).
Proof.
  apply (load_registry_unusable_file
           (mkWorld Malformed true [mkAgent "a" "http://x" "healthy" []] [])).
  right. reflexivity.
Defined.

(** X2: when the registry file holds [null], a boolean or a number,
    [load_registry] raises [TypeError], and the registry has already been
    emptied when it does. *)
Theorem load_registry_scalar_file (w : world) (j : json) :
  registry_file w = Content j ->
  is_scalar j = true ->
  load_registry w
  = (Raise TypeError,
     mkWorld (registry_file w) (writable w) [] (trace w ++ [OpenRead])).
Proof.
  destruct w as [f wr ags tr]. cbn [registry_file writable _agents trace].
  intros -> Hj. destruct j; try discriminate; reflexivity.
Qed.

Lemma load_registry_scalar_file_witness :
  load_registry (mkWorld (Content (JNum 7)) true [mkAgent "a" "http://x" "healthy" []] [])
  = (Raise TypeError, mkWorld (Content (JNum 7)) true [] [OpenRead]).
Proof.
  apply (load_registry_scalar_file
           (mkWorld (Content (JNum 7)) true [mkAgent "a" "http://x" "healthy" []] [])
           (JNum 7)); reflexivity.
Defined.

(** The loop over a concatenation runs the loop over its parts in turn. *)
Lemma load_entries_app (l1 l2 : list json) :
  forall w,
    load_entries (l1 ++ l2) w = (load_entries l1 ;; load_entries l2) w.
Proof.
  induction l1 as [|data rest IH]; intros w; cbn [app load_entries].
  - reflexivity.
  - unfold bind at 1 3 4, lift.
    destruct (missing_required data) as [[|]|e]; [| |reflexivity].
    + unfold bind at 1 3, log, emit. cbv beta iota. apply IH.
    + unfold bind at 1 3, lift.
      destruct (Agent_kwargs data) as [agent|e]; [|reflexivity].
      unfold bind at 1 3, append_agent. cbv beta iota. apply IH.
Qed.

(** X3: a candidate entry that is [null], a boolean or a number aborts the
    load with [TypeError]: the entries before it are loaded (or skipped
    with their warning), the entries after it are not looked at, and the
    registry is left holding the records loaded so far. *)
Theorem load_registry_scalar_entry (w : world) (ds : list (dict json))
        (bad : json) (rest : list json) :
  registry_file w = Content (JArr (map JObj ds ++ bad :: rest)) ->
  Forall accepted ds ->
  is_scalar bad = true ->
  load_registry w
  = (Raise TypeError,
     mkWorld (registry_file w) (writable w)
             (map entry_agent (filter has_required ds))
             (trace w ++ [OpenRead] ++ map skip_warning (skipped ds))).
Proof.
  intros Hfile Hacc Hbad. destruct w as [f wr ags tr]. cbn in Hfile. subst f.
  unfold load_registry, try_except_only, read_registry_file, bind. cbn.
  rewrite load_entries_app. unfold bind at 1.
  rewrite (load_entries_objects ds Hacc). cbn.
  destruct bad; try discriminate; cbn; now rewrite <- !app_assoc.
Qed.

Lemma load_registry_scalar_entry_witness :
  load_registry
    (mkWorld (Content (JArr (map JObj sample_entries ++ [JNull; JObj []]))) true [] [])
  = (Raise TypeError,
     mkWorld (Content (JArr (map JObj sample_entries ++ [JNull; JObj []]))) true
             (map entry_agent (filter has_required sample_entries))
             ([] ++ [OpenRead] ++ map skip_warning (skipped sample_entries))).
Proof.
  apply (load_registry_scalar_entry
           (mkWorld (Content (JArr (map JObj sample_entries ++ [JNull; JObj []])))
                    true [] [])
           sample_entries JNull [JObj []]).
  - reflexivity.
  - repeat constructor; unfold accepted; cbn; intros H;
      try discriminate; eexists; reflexivity.
  - reflexivity.
Defined.

Lemma load_entries_all_skipped (items : list json) :
  Forall (fun x => missing_required x = Ok true) items ->
  forall w,
    load_entries items w
    = (Ok tt, mkWorld (registry_file w) (writable w) (_agents w)
                      (trace w ++ map skip_warning_json items)).
Proof.
  induction 1 as [|x items Hx Hitems IH]; intros w; cbn [load_entries map].
  - unfold ret. rewrite app_nil_r. now destruct w.
  - unfold bind at 1, lift. rewrite Hx.
    unfold bind, log, emit. rewrite IH. cbn. now rewrite <- app_assoc.
Qed.

(** X4: when the registry file holds an object instead of a list, the loop
    runs over the object's keys; unless a key contains both ["id"] and
    ["url"], every key is skipped with a warning, and the load returns
    normally with an empty registry. *)
Theorem load_registry_object_file (w : world) (d : dict json) :
  registry_file w = Content (JObj d) ->
  Forall (fun kv => missing_required (JStr (fst kv)) = Ok true) d ->
  load_registry w
  = (Ok tt,
     mkWorld (registry_file w) (writable w) []
             (trace w ++ [OpenRead]
                ++ map (fun kv => skip_warning_json (JStr (fst kv))) d
                ++ [Log INFO (LoadedAgents 0)])).
Proof.
  intros Hfile Hkeys. destruct w as [f wr ags tr]. cbn in Hfile. subst f.
  unfold load_registry, try_except_only, read_registry_file, bind. cbn.
  rewrite load_entries_all_skipped.
  - cbn. rewrite map_map, <- !app_assoc. reflexivity.
  - apply Forall_map. exact Hkeys.
Qed.

Lemma load_registry_object_file_witness :
  load_registry
    (mkWorld (Content (JObj [("agents", JArr (map JObj sample_entries))])) true [] [])
  = (Ok tt,
     mkWorld (Content (JObj [("agents", JArr (map JObj sample_entries))])) true []
             ([] ++ [OpenRead]
                ++ map (fun kv => skip_warning_json (JStr (fst kv)))
                       [("agents", JArr (map JObj sample_entries))]
                ++ [Log INFO (LoadedAgents 0)])).
Proof.
  apply (load_registry_object_file
           (mkWorld (Content (JObj [("agents", JArr (map JObj sample_entries))]))
                    true [] [])
           [("agents", JArr (map JObj sample_entries))]).
  - reflexivity.
  - repeat constructor.
Defined.

(** ** Lookups *)

Lemma find_agent_some_in (agent_id : string) (agents : list Agent) :
  forall k i a,
    find_agent agent_id k agents = Some (i, a) ->
    In a agents /\ id a = agent_id.
Proof.
  intros k i a H. apply find_agent_nth in H as (_ & Hnth & Hid).
  split; [eapply nth_error_In; eassumption | assumption].
Qed.

Lemma find_agent_none_iff (agent_id : string) (agents : list Agent) (k : nat) :
  find_agent agent_id k agents = None
  <-> (forall a, In a agents -> id a <> agent_id).
Proof.
  split; [|apply find_agent_none].
  revert k. induction agents as [|b rest IH]; intros k; cbn.
  - intros _ a [].
  - destruct (String.eqb_spec (id b) agent_id) as [Heq|Hne]; [discriminate|].
    intros H a [<-|Ha]; [assumption | now apply (IH (S k))].
Qed.

(** X5: [get_agent] never raises and changes nothing; what it returns is a
    record of the registry with the id asked for, and it returns [None]
    exactly when no record has that id. *)
Theorem get_agent_sound_complete (agent_id : string) (w : world) :
  exists r,
    get_agent agent_id w = (Ok r, w)
    /\ (forall a, r = Some a -> In a (_agents w) /\ id a = agent_id)
    /\ (r = None <-> forall a, In a (_agents w) -> id a <> agent_id).
Proof.
  unfold get_agent, bind, get_agents, ret.
  destruct (find_agent agent_id 0 (_agents w)) as [[i a]|] eqn:Hfind; cbn.
  - exists (Some a). split; [reflexivity|]. split.
    + intros b [= <-]. eapply find_agent_some_in; eassumption.
    + split; [discriminate|]. intros Hnone.
      apply find_agent_none_iff with (k := 0) in Hnone. congruence.
  - exists None. split; [reflexivity|]. split; [discriminate|].
    split; [|reflexivity]. intros _. now apply find_agent_none_iff with (k := 0).
Qed.

(** X6: the live status query never raises and answers [healthy],
    [offline] or [not_found]; it answers [not_found] exactly when no record
    has the id, and then it leaves the world as it was: no request is sent,
    the registry file is not opened, nothing is logged. *)
Theorem check_agent_live_status_answer (net : network) (agent_id : string)
        (w : world) :
  exists s w',
    check_agent_live_status net agent_id w = (Ok s, w')
    /\ (s = "healthy" \/ s = "offline" \/ s = "not_found")
    /\ (s = "not_found" <-> forall a, In a (_agents w) -> id a <> agent_id)
    /\ (s = "not_found" -> w' = w).
Proof.
  destruct (find_agent agent_id 0 (_agents w)) as [[i a]|] eqn:Hfind.
  - rewrite (check_agent_live_status_found net agent_id w i a Hfind).
    do 2 eexists. split; [reflexivity|].
    destruct (probe_status_values (net (health_url a))) as [-> | ->].
    + split; [auto|]. split; [|discriminate]. split; [discriminate|].
      intros Hnone. apply find_agent_none_iff with (k := 0) in Hnone. congruence.
    + split; [auto|]. split; [|discriminate]. split; [discriminate|].
      intros Hnone. apply find_agent_none_iff with (k := 0) in Hnone. congruence.
  - rewrite (check_agent_live_status_absent net agent_id w Hfind).
    do 2 eexists. split; [reflexivity|]. split; [auto|]. split; [|reflexivity].
    split; [|reflexivity]. intros _. now apply find_agent_none_iff with (k := 0).
Qed.

(** ** What the operations leave alone *)

Lemma nth_error_update_nth_other {A : Type} (f : A -> A) (l : list A) :
  forall i j, i <> j -> nth_error (update_nth i f l) j = nth_error l j.
Proof.
  induction l as [|x l IH]; intros [|i] [|j] Hne; cbn; try reflexivity.
  - congruence.
  - apply IH. congruence.
Qed.

Lemma length_update_nth {A : Type} (f : A -> A) (l : list A) :
  forall i, length (update_nth i f l) = length l.
Proof.
  induction l as [|x l IH]; intros [|i]; cbn; try reflexivity.
  now rewrite IH.
Qed.

Lemma map_update_nth {A B : Type} (g : A -> B) (f : A -> A) (l : list A) :
  (forall x, g (f x) = g x) ->
  forall i, map g (update_nth i f l) = map g l.
Proof.
  intros H. induction l as [|x l IH]; intros [|i]; cbn; try reflexivity.
  - now rewrite H.
  - now rewrite IH.
Qed.

(** X7: a live status query changes one record only, the first one with
    the id, and of that record only the status: the records at the other
    positions, later records with the same id among them, are as they
    were. *)
Theorem check_agent_live_status_frame (net : network) (agent_id : string)
        (w : world) (i : nat) (a : Agent) :
  find_agent agent_id 0 (_agents w) = Some (i, a) ->
  let w' := snd (check_agent_live_status net agent_id w) in
  length (_agents w') = length (_agents w)
  /\ (forall j, j <> i -> nth_error (_agents w') j = nth_error (_agents w) j)
  /\ (exists a', nth_error (_agents w') i = Some a'
                 /\ id a' = id a /\ url a' = url a /\ extra a' = extra a
                 /\ fst (check_agent_live_status net agent_id w) = Ok (status a')).
Proof.
  intros Hfind. cbv zeta.
  rewrite (check_agent_live_status_found net agent_id w i a Hfind).
  cbn [snd fst _agents]. split; [apply length_update_nth|]. split.
  - intros j Hj. apply nth_error_update_nth_other. congruence.
  - eexists. split.
    + apply nth_error_update_nth.
      apply find_agent_nth in Hfind as (_ & Hnth & _).
      rewrite Nat.sub_0_r in Hnth. exact Hnth.
    + cbn. auto.
Qed.

Lemma check_agent_live_status_frame_witness :
  length (_agents (snd (check_agent_live_status net_healthy "a" duplicate_world)))
  = length (_agents duplicate_world)
  /\ (forall j, j <> 0 ->
        nth_error (_agents (snd (check_agent_live_status net_healthy "a" duplicate_world))) j
        = nth_error (_agents duplicate_world) j)
  /\ (exists a',
        nth_error (_agents (snd (check_agent_live_status net_healthy "a" duplicate_world))) 0
        = Some a'
        /\ id a' = "a" /\ url a' = "http://x" /\ extra a' = []
        /\ fst (check_agent_live_status net_healthy "a" duplicate_world)
           = Ok (status a')).
Proof.
  apply (check_agent_live_status_frame net_healthy "a" duplicate_world 0
           (mkAgent "a" "http://x" "healthy" [])).
  reflexivity.
Defined.

(** X8: the flush, the sweep and the live status query never add, remove
    or reorder records, and never change a record's id, url or additional
    fields, whatever the network and the registry file do. *)
Theorem operations_keep_identities (net : network) (agent_id : string)
        (w : world) :
  map identity (_agents (snd (save_registry_statuses w))) = map identity (_agents w)
  /\ map identity (_agents (snd (health_check_agents net w)))
     = map identity (_agents w)
  /\ map identity (_agents (snd (check_agent_live_status net agent_id w)))
     = map identity (_agents w).
Proof.
  split; [|split].
  - now rewrite save_registry_statuses_run.
  - rewrite health_check_agents_run. cbn [snd _agents].
    rewrite map_map. apply map_ext. reflexivity.
  - destruct (find_agent agent_id 0 (_agents w)) as [[i a]|] eqn:Hfind.
    + rewrite (check_agent_live_status_found net agent_id w i a Hfind).
      cbn [snd _agents]. apply map_update_nth. reflexivity.
    + now rewrite (check_agent_live_status_absent net agent_id w Hfind).
Qed.

Lemma probed_by_identity (net : network) (a b : Agent) :
  identity a = identity b -> probed net a = probed net b.
Proof.
  destruct a as [i u s e], b as [i' u' s' e'].
  unfold identity. cbn. intros [= -> -> ->]. reflexivity.
Qed.

Lemma map_probed_by_identity (net : network) (l1 : list Agent) :
  forall l2,
    map identity l1 = map identity l2 ->
    map (probed net) l1 = map (probed net) l2.
Proof.
  induction l1 as [|a l1 IH]; intros [|b l2]; cbn; try discriminate.
  - reflexivity.
  - intros H.
    assert (Hab : identity a = identity b) by congruence.
    assert (Hrest : map identity l1 = map identity l2) by congruence.
    now rewrite (probed_by_identity net a b Hab), (IH l2 Hrest).
Qed.

(** X9: a sweep overwrites every status: the status a record has after a
    sweep is [healthy] or [offline] and does not depend on the status it
    had before: two registries holding the same records up to their
    statuses hold the very same records after a sweep under the same
    network. *)
Theorem sweep_overwrites_statuses (net : network) (w1 w2 : world) :
  map identity (_agents w1) = map identity (_agents w2) ->
  _agents (snd (health_check_agents net w1))
  = _agents (snd (health_check_agents net w2))
  /\ Forall (fun a => status a = "healthy" \/ status a = "offline")
            (_agents (snd (health_check_agents net w1))).
Proof.
  intros Hid. rewrite !health_check_agents_run. cbn [snd _agents]. split.
  - now apply map_probed_by_identity.
  - apply Forall_forall. intros a Ha.
    apply in_map_iff in Ha as (b & <- & _).
    apply probe_status_values.
Qed.

Lemma sweep_overwrites_statuses_witness :
  _agents (snd (health_check_agents net_plain_200 one_agent_world))
  = _agents (snd (health_check_agents net_plain_200
                    (mkWorld Absent false [mkAgent "a" "http://x" "offline" []] [])))
  /\ Forall (fun a => status a = "healthy" \/ status a = "offline")
            (_agents (snd (health_check_agents net_plain_200 one_agent_world))).
Proof.
  apply (sweep_overwrites_statuses net_plain_200 one_agent_world
           (mkWorld Absent false [mkAgent "a" "http://x" "offline" []] [])).
  reflexivity.
Defined.

(** X10: the sweep and the live status query classify alike: under the
    same network, the record a live status query updates is left exactly
    as a sweep leaves the record at that position, and the query answers
    that record's status. *)
Theorem live_status_agrees_with_sweep (net : network) (agent_id : string)
        (w : world) (i : nat) (a : Agent) :
  find_agent agent_id 0 (_agents w) = Some (i, a) ->
  nth_error (_agents (snd (check_agent_live_status net agent_id w))) i
  = nth_error (_agents (snd (health_check_agents net w))) i
  /\ exists a',
       nth_error (_agents (snd (health_check_agents net w))) i = Some a'
       /\ fst (check_agent_live_status net agent_id w) = Ok (status a').
Proof.
  intros Hfind.
  pose proof (find_agent_nth _ _ _ _ _ Hfind) as (_ & Hnth & _).
  rewrite Nat.sub_0_r in Hnth.
  rewrite (check_agent_live_status_found net agent_id w i a Hfind).
  rewrite health_check_agents_run. cbn [snd fst _agents].
  rewrite (nth_error_update_nth _ _ _ _ Hnth).
  rewrite nth_error_map, Hnth. cbn. split; [reflexivity|].
  eexists. split; reflexivity.
Qed.

Lemma live_status_agrees_with_sweep_witness :
  nth_error (_agents (snd (check_agent_live_status net_plain_200 "a" duplicate_world))) 0
  = nth_error (_agents (snd (health_check_agents net_plain_200 duplicate_world))) 0
  /\ exists a',
       nth_error (_agents (snd (health_check_agents net_plain_200 duplicate_world))) 0
       = Some a'
       /\ fst (check_agent_live_status net_plain_200 "a" duplicate_world)
          = Ok (status a').
Proof.
  apply (live_status_agrees_with_sweep net_plain_200 "a" duplicate_world 0
           (mkAgent "a" "http://x" "healthy" [])).
  reflexivity.
Defined.

Lemma probe_status_healthy_iff (r : http_result) :
  probe_status r = "healthy"
  <-> exists resp,
        r = Replied resp /\ status_code resp = 200%Z
        /\ (forall d, body resp = Some (JObj d) ->
              dict_get "status" d = Some (JStr "healthy")).
Proof.
  unfold probe_status. split.
  - destruct r as [e|resp]; [discriminate|].
    destruct (Z.eqb_spec (status_code resp) 200) as [Hc|Hc]; [|discriminate].
    intros H. exists resp. repeat split; [assumption|].
    intros d Hd. rewrite Hd in H.
    destruct (dict_get "status" d) as [v|]; [|discriminate].
    destruct (json_eq_str v "healthy") eqn:E; [|discriminate].
    apply json_eq_str_true in E. now subst.
  - intros (resp & -> & Hc & Hbody). rewrite Hc. cbn.
    destruct (body resp) as [[| | | | |d]|]; try reflexivity.
    now rewrite (Hbody d eq_refl).
Qed.

(** X11: what a sweep makes of each agent, in full: the record is set
    [healthy] exactly when the GET on its health address is answered with
    the status code 200 and a body that either does not parse to a JSON
    object or is an object whose status field is [healthy]; in every other
    case it is set [offline]. *)
Theorem sweep_healthy_iff (net : network) (w : world) :
  Forall2 (fun a a' =>
             (status a' = "healthy"
              <-> exists resp,
                    net (health_url a) = Replied resp
                    /\ status_code resp = 200%Z
                    /\ (forall d, body resp = Some (JObj d) ->
                          dict_get "status" d = Some (JStr "healthy")))
             /\ (status a' <> "healthy" -> status a' = "offline"))
          (_agents w) (_agents (snd (health_check_agents net w))).
Proof.
  rewrite health_check_agents_run. cbn [snd _agents].
  apply Forall2_map_r. intros a. cbn. split.
  - apply probe_status_healthy_iff.
  - intros H. destruct (probe_status_values (net (health_url a))); congruence.
Qed.

(** ** The flush *)

(** X12: whatever the state of the registry file, [save_registry_statuses]
    returns normally, leaves the in-memory records as they were and only
    adds to the trace; it never creates a registry file that is missing,
    unreadable or not JSON, and it leaves the file as it was when the file
    cannot be written. *)
Theorem save_registry_statuses_contained (w : world) :
  exists w' evs,
    save_registry_statuses w = (Ok tt, w')
    /\ _agents w' = _agents w
    /\ writable w' = writable w
    /\ trace w' = trace w ++ OpenRead :: evs
    /\ ((forall j, registry_file w <> Content j) ->
        registry_file w' = registry_file w)
    /\ (writable w = false -> registry_file w' = registry_file w).
Proof.
  rewrite save_registry_statuses_run.
  exists (mkWorld (file_after_save (registry_file w) (writable w) (_agents w))
                  (writable w) (_agents w)
                  (trace w ++ save_events (registry_file w) (writable w) (_agents w))).
  exists (tl (save_events (registry_file w) (writable w) (_agents w))).
  cbn [_agents writable trace registry_file].
  split; [reflexivity|]. split; [reflexivity|]. split; [reflexivity|].
  unfold file_after_save, save_events. split; [|split].
  - f_equal. destruct (overlaid_file _ _); [destruct (writable w)|]; reflexivity.
  - intros Hno. destruct (registry_file w) as [| | |j]; try reflexivity.
    now elim (Hno j).
  - intros ->. now destruct (overlaid_file _ _).
Qed.

Lemma overlay_entry_unusable (m : dict string) (entry : json) :
  entry_unusable entry = true -> exists e, overlay_entry m entry = Raise e.
Proof.
  unfold entry_unusable, overlay_entry, hashable_id.
  destruct entry as [| | | | |d]; cbn; try (intros _; eexists; reflexivity).
  destruct (dict_get "id" d) as [[| | | | |]|]; cbn; try discriminate;
    intros _; eexists; reflexivity.
Qed.

Lemma overlay_entries_unusable (m : dict string) (entries : list json)
      (bad : json) :
  In bad entries -> entry_unusable bad = true ->
  exists e, overlay_entries m entries = Raise e.
Proof.
  intros Hin Hbad. induction entries as [|entry rest IH]; [destruct Hin|].
  cbn. destruct (overlay_entry m entry) as [entry'|e] eqn:H1;
    [|now exists e].
  destruct Hin as [->|Hin].
  - destruct (overlay_entry_unusable m bad Hbad) as [e He]. congruence.
  - destruct (IH Hin) as [e ->]. now exists e.
Qed.

(** X13: the flush is all or nothing: if one entry of the list in the
    registry file is not an object, or has a list or an object as its id,
    no status is written at all: the file is not opened for writing and
    stays as it was, and an error is logged. *)
Theorem save_registry_statuses_unusable_entry
        (w : world) (entries : list json) (bad : json) :
  registry_file w = Content (JArr entries) ->
  In bad entries ->
  entry_unusable bad = true ->
  exists e,
    save_registry_statuses w
    = (Ok tt,
       mkWorld (registry_file w) (writable w) (_agents w)
               (trace w ++ [OpenRead; Log ERROR (ErrorSavingStatuses e)])).
Proof.
  intros Hfile Hin Hbad. rewrite save_registry_statuses_run.
  unfold file_after_save, save_events, overlaid_file. rewrite Hfile.
  cbn [py_iter].
  destruct (overlay_entries_unusable (build_status_map (_agents w)) entries bad
              Hin Hbad) as [e ->].
  now exists e.
Qed.

Lemma save_registry_statuses_unusable_entry_witness :
  exists e,
    save_registry_statuses
      (mkWorld (Content (JArr [JObj [("id", JStr "a")]; JStr "b"])) true
               [mkAgent "a" "http://x" "healthy" []] [])
    = (Ok tt,
       mkWorld (Content (JArr [JObj [("id", JStr "a")]; JStr "b"])) true
               [mkAgent "a" "http://x" "healthy" []]
               ([] ++ [OpenRead; Log ERROR (ErrorSavingStatuses e)])).
Proof.
  apply (save_registry_statuses_unusable_entry
           (mkWorld (Content (JArr [JObj [("id", JStr "a")]; JStr "b"])) true
                    [mkAgent "a" "http://x" "healthy" []] [])
           [JObj [("id", JStr "a")]; JStr "b"] (JStr "b")).
  - reflexivity.
  - right. left. reflexivity.
  - reflexivity.
Defined.

Lemma overlay_entries_no_agents (entries : list json) :
  forall entries',
    overlay_entries [] entries = Ok entries' -> entries' = entries.
Proof.
  induction entries as [|entry rest IH]; intros entries'; cbn.
  - now intros [= <-].
  - destruct (overlay_entry [] entry) as [entry1|] eqn:H1; [|discriminate].
    destruct (overlay_entries [] rest) as [rest1|] eqn:H2; [|discriminate].
    intros [= <-]. rewrite (IH _ eq_refl). f_equal.
    unfold overlay_entry in H1.
    destruct (py_get entry "id") as [aid|]; [|discriminate].
    destruct aid; cbn in H1; try discriminate; congruence.
Qed.

(** X14: a sweep over an empty registry sends no request and leaves the
    content of the registry file as it was, whatever the file holds. *)
Theorem sweep_of_empty_registry (net : network) (w : world) :
  _agents w = [] ->
  exists w',
    health_check_agents net w = (Ok tt, w')
    /\ _agents w' = []
    /\ registry_file w' = registry_file w
    /\ filter is_http (trace w') = filter is_http (trace w).
Proof.
  intros Hempty. rewrite health_check_agents_run, Hempty. cbv zeta.
  eexists. split; [reflexivity|]. cbn [_agents registry_file trace map flat_map].
  split; [reflexivity|]. split.
  - unfold file_after_save, overlaid_file.
    destruct (registry_file w) as [| | |j]; try reflexivity.
    destruct (py_iter j) as [entries|] eqn:Hiter; [|reflexivity].
    cbn [build_status_map fold_left].
    destruct (overlay_entries [] entries) as [entries'|] eqn:Hov; [|reflexivity].
    destruct (writable w); [|reflexivity].
    apply overlay_entries_no_agents in Hov. subst entries'.
    destruct j; cbn in *; try reflexivity. now injection Hiter as ->.
  - rewrite !filter_app. cbn [app].
    destruct (save_events_shape (registry_file w) (writable w) []) as [_ ->].
    cbn. now rewrite app_nil_r.
Qed.

Lemma sweep_of_empty_registry_witness :
  exists w',
    health_check_agents net_healthy sample_world = (Ok tt, w')
    /\ _agents w' = []
    /\ registry_file w' = registry_file sample_world
    /\ filter is_http (trace w') = filter is_http (trace sample_world).
Proof.
  apply (sweep_of_empty_registry net_healthy sample_world). reflexivity.
Defined.

(** ** The health address *)

Lemma rstrip_app_char (c : ascii) (s : string) :
  rstrip c (s ++ String c EmptyString)%string = rstrip c s.
Proof.
  induction s as [|a t IH]; cbn.
  - now rewrite Ascii.eqb_refl.
  - now rewrite IH.
Qed.

Lemma rstrip_other_char (c a : ascii) (s : string) :
  a <> c ->
  rstrip c (s ++ String a EmptyString)%string = (s ++ String a EmptyString)%string.
Proof.
  intros Hne. induction s as [|b t IH]; cbn.
  - destruct (Ascii.eqb_spec a c); [contradiction | reflexivity].
  - rewrite IH. now destruct t.
Qed.

(** X15: the health address of an agent does not depend on the slashes its
    url ends with: a url and the same url followed by a slash are probed at
    the same address; and for a url that ends with another character the
    address is the url followed by [/health]. *)
Theorem health_url_trailing_slash (a : Agent) :
  health_url (mkAgent (id a) (url a ++ "/") (status a) (extra a)) = health_url a
  /\ (forall (s : string) (c : ascii),
        c <> "/"%char -> url a = (s ++ String c EmptyString)%string ->
        health_url a = (url a ++ "/health")%string).
Proof.
  unfold health_url. cbn [url]. split.
  - now rewrite rstrip_app_char.
  - intros s c Hc ->. now rewrite rstrip_other_char.
Qed.

(** ** Persisting and loading again *)






Lemma last_status_NoDup (agents : list Agent) (a : Agent) :
  NoDup (map id agents) -> In a agents ->
  last_status agents (id a) = Some (status a).
Proof.
  induction agents as [|b rest IH]; intros Hnd Hin; [destruct Hin|].
  cbn in Hnd. inversion Hnd as [|x l Hnotin Hnd']; subst. cbn.
  destruct Hin as [->|Hin].
  - assert (Hnone : last_status rest (id a) = None).
    { apply last_status_none. intros c Hc Heq. apply Hnotin.
      rewrite <- Heq. now apply in_map. }
    now rewrite Hnone, String.eqb_refl.
  - now rewrite (IH Hnd' Hin).
Qed.


Lemma health_url_trailing_slash_witness :
  health_url (mkAgent "a" "http://x" "unknown" []) = "http://x/health".
Proof.
  apply (proj2 (health_url_trailing_slash (mkAgent "a" "http://x" "unknown" []))
               "http://" "x"%char).
  - discriminate.
  - reflexivity.
Defined.



(** X17: when the registry file cannot be written, the statuses of a sweep
    do not survive a reload: after a load, a sweep and a second load, the
    records are those of the first load again. *)
Theorem reload_after_unwritten_sweep (net : network) (w : world)
        (ds : list (dict json)) :
  registry_file w = Content (JArr (map JObj ds)) ->
  writable w = false ->
  Forall accepted ds ->
  exists w0 w1 w2,
    load_registry w = (Ok tt, w0)
    /\ health_check_agents net w0 = (Ok tt, w1)
    /\ _agents w1 = map (probed net) (_agents w0)
    /\ load_registry w1 = (Ok tt, w2)
    /\ _agents w2 = _agents w0.
Proof.
  intros Hfile Hwr Hacc.
  rewrite (load_registry_objects w ds Hfile Hacc).
  do 3 eexists. split; [reflexivity|].
  rewrite health_check_agents_run. cbv zeta.
  cbn [registry_file writable _agents trace].
  split; [reflexivity|]. split; [reflexivity|].
  assert (Hsave : forall agents,
            file_after_save (registry_file w) (writable w) agents
            = Content (JArr (map JObj ds))).
  { intros agents. unfold file_after_save. rewrite Hwr, Hfile.
    now destruct (overlaid_file _ _). }
  rewrite Hsave.
  erewrite (load_registry_objects _ ds); [|reflexivity|exact Hacc].
  split; reflexivity.
Qed.

Lemma reload_after_unwritten_sweep_witness :
  exists w0 w1 w2,
    load_registry (mkWorld (Content (JArr (map JObj sample_entries))) false [] [])
    = (Ok tt, w0)
    /\ health_check_agents net_healthy w0 = (Ok tt, w1)
    /\ _agents w1 = map (probed net_healthy) (_agents w0)
    /\ load_registry w1 = (Ok tt, w2)
    /\ _agents w2 = _agents w0.
Proof.
  apply (reload_after_unwritten_sweep net_healthy
           (mkWorld (Content (JArr (map JObj sample_entries))) false [] [])
           sample_entries).
  - reflexivity.
  - reflexivity.
  - repeat constructor; unfold accepted; cbn; intros H;
      try discriminate; eexists; reflexivity.
Defined.

Lemma map_id_update_status (i : nat) (s : string) (agents : list Agent) :
  map id (update_nth i (set_agent_status s) agents) = map id agents.
Proof. apply map_update_nth. reflexivity. Qed.

(** X18: when no two records share an id, the answer of a live status
    query is what the registry file shows afterwards: on a writable file
    holding a list of objects, every disk entry with the id asked for has
    the returned status as its [status]. *)
Theorem live_status_persisted (net : network) (agent_id : string) (w : world)
        (i : nat) (a : Agent) (ds : list (dict json)) :
  find_agent agent_id 0 (_agents w) = Some (i, a) ->
  NoDup (map id (_agents w)) ->
  registry_file w = Content (JArr (map JObj ds)) ->
  writable w = true ->
  Forall (fun d => hashable_id d = true) ds ->
  exists s w' ds',
    check_agent_live_status net agent_id w = (Ok s, w')
    /\ registry_file w' = Content (JArr (map JObj ds'))
    /\ Forall2 (fun d d' =>
                  dict_get "id" d = Some (JStr agent_id) ->
                  d' = dict_set "status" (JStr s) d
                  /\ dict_get "status" d' = Some (JStr s))
               ds ds'.
Proof.
  intros Hfind Hnd Hfile Hwr Hhash.
  pose proof (find_agent_nth _ _ _ _ _ Hfind) as (_ & Hnth & Hid).
  rewrite Nat.sub_0_r in Hnth.
  rewrite (check_agent_live_status_found net agent_id w i a Hfind). cbv zeta.
  set (s := probe_status (net (health_url a))).
  set (agents' := update_nth i (set_agent_status s) (_agents w)).
  assert (Hlast : last_status agents' agent_id = Some s).
  { rewrite <- Hid.
    apply (last_status_NoDup agents' (set_agent_status s a)).
    - unfold agents'. now rewrite map_id_update_status.
    - eapply nth_error_In. unfold agents'.
      apply nth_error_update_nth. exact Hnth. }
  exists s. eexists. exists (map (overlay_dict agents') ds).
  split; [reflexivity|]. cbn [registry_file]. split.
  - unfold file_after_save, overlaid_file. rewrite Hfile, Hwr. cbn [py_iter].
    now rewrite (overlay_entries_objects agents' ds Hhash).
  - apply Forall2_map_r. intros d Hd. unfold overlay_dict.
    rewrite Hd, Hlast. split; [reflexivity | apply dict_get_set_same].
Qed.

Lemma live_status_persisted_witness :
  exists s w' ds',
    check_agent_live_status net_healthy "b" two_agent_world = (Ok s, w')
    /\ registry_file w' = Content (JArr (map JObj ds'))
    /\ Forall2 (fun d d' =>
                  dict_get "id" d = Some (JStr "b") ->
                  d' = dict_set "status" (JStr s) d
                  /\ dict_get "status" d' = Some (JStr s))
               [ [("id", JStr "a"); ("url", JStr "http://x")];
                 [("id", JStr "b"); ("url", JStr "http://y")] ]
               ds'.
Proof.
  apply (live_status_persisted net_healthy "b" two_agent_world 1
           (mkAgent "b" "http://y" "unknown" [])).
  - reflexivity.
  - repeat constructor; cbn; intuition discriminate.
  - reflexivity.
  - reflexivity.
  - repeat constructor.
Defined.

(** X19: a sweep opens the registry file only after its probes: its
    trace is the events of the probes, with the request and the result of
    every agent and no file event among them, then one opening of the file
    for reading, then events without any request and with at most one
    opening of the file for writing, however many agents are probed. *)
Theorem sweep_opens_file_after_probes (net : network) (w : world) :
  exists probes rest,
    trace (snd (health_check_agents net w))
    = trace w ++ probes ++ OpenRead :: rest
    /\ filter is_http probes = flat_map (http_exchange net) (_agents w)
    /\ filter is_file probes = []
    /\ filter is_http rest = []
    /\ (filter is_file rest = [] \/ filter is_file rest = [OpenWrite]).
Proof.
  rewrite health_check_agents_run. cbn [snd trace].
  exists (flat_map (probe_events net) (_agents w)).
  exists (tl (save_events (registry_file w) (writable w)
                          (map (probed net) (_agents w)))
          ++ [Log INFO HealthChecksComplete]).
  split; [|split; [|split]].
  - do 2 f_equal. unfold save_events.
    destruct (overlaid_file _ _); [destruct (writable w)|]; reflexivity.
  - rewrite filter_flat_map. apply flat_map_ext. apply probe_events_http.
  - rewrite filter_flat_map. induction (_agents w) as [|a l IH]; [reflexivity|].
    cbn [flat_map]. now rewrite IH, probe_events_file.
  - unfold save_events.
    destruct (overlaid_file _ _); [destruct (writable w)|]; cbn; auto.
Qed.
